(** * forkwork: the [fnm] and [top] commands

    A shallow embedding of [src/forkwork/forkwork.py].  The program is a
    thin client of the GitHub API: everything it computes is a function of
    what the API hands back, so the API objects are records of the data
    they carry, and every call that can fail says how.

    Conventions.
    - A Python iterator (what [repository.forks()], [fork.commits()],
      [fork.branches()] and [fork.contributors()] return) is a [listing]:
      the items it yields, then either the end or an exception.
    - A command runs in the monad [M S]: [S] holds the local variables the
      loops assign to ([old_login] in [fnm], [repos] in [top]); the trace
      records, in order, what [click.echo] writes and every per-repository
      API call; the outcome is a value or the exception that escaped.
    - [click.echo(message, file, nl, ...)] writes [message] to standard
      output when it is given nothing else.  A second positional argument
      is the stream to write to: the program passes a string there, which
      has no [write], so that call raises [AttributeError] and writes
      nothing.
    - The spinner ([Halo]) and the HTTP cache only decorate the run and are
      left out. *)

From Stdlib Require Import List ZArith String Ascii Bool Lia Sorted Permutation.
Import ListNotations.
Local Open Scope string_scope.
Local Open Scope list_scope.

Set Implicit Arguments.

(** ** Exceptions, values, iterators *)

Inductive exn : Type :=
| NotFoundError                (* github3.exceptions.NotFoundError *)
| AttributeError
| TypeError
| ValueError
| OtherError (name : string).  (* AuthenticationFailed, ConnectionError, ... *)

Definition is_NotFoundError (e : exn) : bool :=
  match e with NotFoundError => true | _ => false end.

Inductive outcome (A : Type) : Type :=
| Ok (a : A)
| Raise (e : exn).
Arguments Ok {A} a.
Arguments Raise {A} e.

(** The values that reach [click.echo] and the table: ints and strings. *)
Inductive pyval : Type :=
| PInt (z : Z)
| PStr (s : string).

Record listing (A : Type) : Type := Listing {
  yielded : list A;
  failure : option exn
}.
Arguments Listing {A} yielded failure.

(** ** The API objects *)

Module Commit.
Record t : Type := Make { message : string; html_url : string }.
End Commit.

Module User.
Record t : Type := Make { login : string }.
End User.

Module Contributor.
Record t : Type := Make { contributions_count : Z }.
End Contributor.

Module Branch.
Record t : Type := Make { name : string }.
End Branch.

Module Fork.
Record t : Type := Make {
  html_url : string;
  owner : User.t;
  name : string;
  stargazers_count : Z;
  forks_count : Z;
  open_issues_count : Z;
  updated_at : string;
  pushed_at : string;
  commits : listing Commit.t;
  branches : listing Branch.t;
  contributors : listing Contributor.t
}.
End Fork.

Module Repository.
Record t : Type := Make {
  html_url : string;
  commits : listing Commit.t;
  forks : listing Fork.t;
  subscribers_count : Z
}.
End Repository.

Module GitHub.
(** The request behind [gh.repository(owner, name)], for an owner and a
    name that are not empty. *)
Record t : Type := Make { repository : string -> string -> outcome Repository.t }.
End GitHub.

(** Python hands [fnm] whatever [cli] stored under [repository]; the field
    is not typed, so it holds either kind of object. *)
Inductive object : Type :=
| StrObj (s : string)
| RepositoryObj (r : Repository.t).

(** [namedtuple("Repo", ["repository", "forks", "gh"])] of [cli]. *)
Module RepoCtx.
Record t : Type := Make {
  repository : object;
  forks : listing Fork.t;
  gh : GitHub.t
}.
End RepoCtx.

(** [namedtuple("Repo", list(columns.keys()))] of [top]: a row knows its
    field names and carries one value per field. *)
Module Repo.
Record t : Type := Make { fields : list string; values : list pyval }.
End Repo.

(** ** Traces and the command monad *)

Inductive event : Type :=
| Echo (args : list pyval)                             (* click.echo(message) *)
| EchoTable (rows : list Repo.t) (headers : list string)
                                 (* click.echo(tabulate(rows, headers=headers)) *)
| Call (method target : string).                       (* target.method() *)

Definition M (S A : Type) : Type := S -> list event * S * outcome A.

Definition trace_of {S A} (r : list event * S * outcome A) : list event := fst (fst r).
Definition state_of {S A} (r : list event * S * outcome A) : S := snd (fst r).
Definition outcome_of {S A} (r : list event * S * outcome A) : outcome A := snd r.

Section Monad.
Context {S : Type}.

Definition ret {A} (a : A) : M S A := fun s => ([], s, Ok a).

Definition raise {A} (e : exn) : M S A := fun s => ([], s, Raise e).

Definition bind {A B} (m : M S A) (k : A -> M S B) : M S B :=
  fun s =>
    match m s with
    | (t, s', Ok a) =>
        match k a s' with
        | (t', s'', r) => (t ++ t', s'', r)
        end
    | (t, s', Raise e) => (t, s', Raise e)
    end.

Definition emit (ev : event) : M S unit := fun s => ([ev], s, Ok tt).

Definition get : M S S := fun s => ([], s, Ok s).

Definition put (s' : S) : M S unit := fun _ => ([], s', Ok tt).

(** [try: m  except github3.exceptions.NotFoundError: handler].  The
    variables assigned before the exception keep their values. *)
Definition try_except_NotFoundError (m handler : M S unit) : M S unit :=
  fun s =>
    match m s with
    | (t, s', Raise e) =>
        if is_NotFoundError e
        then match handler s' with
             | (t', s'', r) => (t ++ t', s'', r)
             end
        else (t, s', Raise e)
    | r => r
    end.

(** [for a in items: body(a)] over the items already at hand. *)
Fixpoint for_in {A} (items : list A) (body : A -> M S unit) : M S unit :=
  match items with
  | [] => ret tt
  | a :: rest => bind (body a) (fun _ => for_in rest body)
  end.

(** The end of an iterator: it stops, or it raises. *)
Definition finish (f : option exn) : M S unit :=
  match f with
  | None => ret tt
  | Some e => raise e
  end.

(** [for a in it: body(a)] over an iterator. *)
Definition for_each {A} (it : listing A) (body : A -> M S unit) : M S unit :=
  bind (for_in (yielded it) body) (fun _ => finish (failure it)).

(** [list(it)]: the items, unless the iterator raises on the way. *)
Definition list_of {A} (it : listing A) : M S (list A) :=
  bind (finish (failure it)) (fun _ => ret (yielded it)).

(** [[f(a) for a in it]] *)
Definition comprehension {A B} (f : A -> B) (it : listing A) : M S (list B) :=
  bind (list_of it) (fun l => ret (map f l)).

(** A step that cannot touch the variables or the trace. *)
Definition lift {A} (o : outcome A) : M S A := fun s => ([], s, o).
End Monad.

Declare Scope monad_scope.
Delimit Scope monad_scope with monad.
Notation "x <- m ;; k" := (bind m (fun x => k))
  (at level 100, m at next level, right associativity) : monad_scope.
Notation "m ;; k" := (bind m (fun _ => k))
  (at level 100, right associativity) : monad_scope.
Local Open Scope monad_scope.

(** [click.echo], called with positional arguments only.  The
    second one, when there is one, is taken for the file to write to. *)
Definition echo {S} (args : list pyval) : M S unit :=
  match args with
  | [] | [_] => emit (Echo args)
  | _message :: _file :: _ => raise AttributeError
  end.

(** The one-character string Python writes ["\n"]. *)
Definition newline : string := String (ascii_of_nat 10) EmptyString.

(** ** [fnm] *)

(** [enumerate(items, start)] *)
Fixpoint enumerate_from {A} (start : Z) (items : list A) : list (Z * A) :=
  match items with
  | [] => []
  | a :: rest => (start, a) :: enumerate_from (start + 1) rest
  end.

Definition enumerate {A} (it : listing A) (start : Z) : listing (Z * A) :=
  Listing (enumerate_from start (yielded it)) (failure it).

(** [x in l] on a list of strings *)
Definition contains (l : list string) (x : string) : bool :=
  existsb (String.eqb x) l.

(** [repo_ctx.repository.commits()]: a [str] has no such method. *)
Definition commits_of {S} (o : object) : M S (listing Commit.t) :=
  match o with
  | StrObj _ => raise AttributeError
  | RepositoryObj r =>
      emit (Call "commits" (Repository.html_url r)) ;;
      ret (Repository.commits r)
  end.

Definition not_found_notice (prefix : string) (fork : Fork.t) : pyval :=
  PStr (prefix ++ "Repository " ++ Fork.html_url fork ++ " not found").

(** Lines 68-73: the body of the loop over one fork's commits. *)
Definition fnm_commit (repo_message : list string) (fork : Fork.t)
    (ic : Z * Commit.t) : M string unit :=
  let '(index, commit) := ic in
  if negb (contains repo_message (Commit.message commit)) then
    let new_login := User.login (Fork.owner fork) in
    old_login <- get ;;
    (if negb (String.eqb old_login (User.login (Fork.owner fork))) then
       echo [PStr newline; PStr new_login; PStr (Fork.html_url fork)] ;;
       put new_login
     else ret tt) ;;
    echo [PInt index; PStr (Commit.message commit); PStr (Commit.html_url commit)]
  else ret tt.

(** Lines 66-75: one turn of the loop over the forks. *)
Definition fnm_fork (repo_message : list string) (fork : Fork.t) : M string unit :=
  try_except_NotFoundError
    (emit (Call "commits" (Fork.html_url fork)) ;;
     for_each (enumerate (Fork.commits fork) 1) (fnm_commit repo_message fork))
    (echo [not_found_notice EmptyString fork]).

Definition fnm (repo_ctx : RepoCtx.t) : M string unit :=
  repo_commits <- commits_of (RepoCtx.repository repo_ctx) ;;
  repo_message <- comprehension Commit.message repo_commits ;;
  put EmptyString ;;
  for_each (RepoCtx.forks repo_ctx) (fnm_fork repo_message).

(** ** [top] *)

(** The values click gives [sort], one per flag ([-S] is the default). *)
Inductive sort_flag : Type :=
| Star | Forks | Open_issues | Updated_at | Pushed_at
| Watchers_count | Commits | Branches.

Definition flag_value (f : sort_flag) : string :=
  match f with
  | Star => "stargazers_count"
  | Forks => "forks_count"
  | Open_issues => "open_issues_count"
  | Updated_at => "updated_at"
  | Pushed_at => "pushed_at"
  | Watchers_count => "watchers"
  | Commits => "commits"
  | Branches => "branches"
  end.

(** [--rows] when the flag is not given. *)
Definition default_rows : Z := 10.

(** [str.capitalize] on ASCII letters. *)
Definition upper (c : ascii) : ascii :=
  let n := nat_of_ascii c in
  if (97 <=? n)%nat && (n <=? 122)%nat then ascii_of_nat (n - 32) else c.

Definition lower (c : ascii) : ascii :=
  let n := nat_of_ascii c in
  if (65 <=? n)%nat && (n <=? 90)%nat then ascii_of_nat (n + 32) else c.

Fixpoint lower_all (s : string) : string :=
  match s with
  | EmptyString => EmptyString
  | String c s' => String (lower c) (lower_all s')
  end.

Definition capitalize (s : string) : string :=
  match s with
  | EmptyString => EmptyString
  | String c s' => String (upper c) (lower_all s')
  end.

(** An [OrderedDict] from field name to header. *)
Definition ordered_dict : Type := list (string * string).

(** [d[k]] *)
Fixpoint od_get (d : ordered_dict) (k : string) : option string :=
  match d with
  | [] => None
  | (k', v) :: d' => if String.eqb k' k then Some v else od_get d' k
  end.

(** [d[k] = v]: a known key keeps its place, a new one goes last. *)
Fixpoint od_set (d : ordered_dict) (k v : string) : ordered_dict :=
  match d with
  | [] => [(k, v)]
  | (k', v') :: d' =>
      if String.eqb k' k then (k', v) :: d' else (k', v') :: od_set d' k v
  end.

Definition od_keys (d : ordered_dict) : list string := map fst d.
Definition od_values (d : ordered_dict) : list string := map snd d.

Definition columns0 : ordered_dict :=
  [ ("html_url", "URL");
    ("stargazers_count", "Stars");
    ("forks_count", "Forks");
    ("open_issues_count", "Open Issues");
    ("updated_at", "Last update");
    ("pushed_at", "Pushed At") ].

(** Lines 94-114: the field names of [Repo] and the headers of the table. *)
Definition top_columns (sort : string) : outcome (list string * list string) :=
  let columns := columns0 in
  let headers := od_values columns in
  if contains ["branches"; "commits"; "watchers"] sort then
    let columns := od_set columns sort (capitalize sort) in
    match od_get columns sort with
    | Some h => Ok (od_keys columns, headers ++ [h])
    | None => Raise (OtherError "KeyError")
    end
  else Ok (od_keys columns, headers).

(** The constructor of [Repo], called on the unpacked list: one argument
    per field. *)
Definition new_Repo (fields : list string) (args : list pyval) : outcome Repo.t :=
  if (List.length args =? List.length fields)%nat then Ok (Repo.Make fields args)
  else Raise TypeError.

Fixpoint lookup_field (fields : list string) (values : list pyval) (name : string)
    : option pyval :=
  match fields, values with
  | f :: fields', v :: values' =>
      if String.eqb f name then Some v else lookup_field fields' values' name
  | _, _ => None
  end.

(** [getattr(r, name)] on a row. *)
Definition getattr (r : Repo.t) (name : string) : option pyval :=
  lookup_field (Repo.fields r) (Repo.values r) name.

(** [attrgetter(name)(r)] *)
Definition attrgetter (name : string) (r : Repo.t) : outcome pyval :=
  match getattr r name with
  | Some v => Ok v
  | None => Raise AttributeError
  end.

Fixpoint assoc (kw : list (string * pyval)) (name : string) : option pyval :=
  match kw with
  | [] => None
  | (k, v) :: kw' => if String.eqb k name then Some v else assoc kw' name
  end.

Fixpoint replace_values (fields : list string) (values : list pyval)
    (kw : list (string * pyval)) : list pyval :=
  match fields, values with
  | f :: fields', v :: values' =>
      match assoc kw f with
      | Some v' => v'
      | None => v
      end :: replace_values fields' values' kw
  | _, _ => values
  end.

(** The [_replace] method of a row, for keywords that name fields of it. *)
Definition _replace (r : Repo.t) (kw : list (string * pyval)) : Repo.t :=
  Repo.Make (Repo.fields r) (replace_values (Repo.fields r) (Repo.values r) kw).

(** Python's [a < b].  A column of the table holds ints or holds strings;
    the int-against-string cases are there to make the function total. *)
Definition py_lt (a b : pyval) : bool :=
  match a, b with
  | PInt x, PInt y => (x <? y)%Z
  | PStr x, PStr y => String.ltb x y
  | PInt _, PStr _ => true
  | PStr _, PInt _ => false
  end.

(** [sorted(l, key=..., reverse=True)] on rows already paired with their
    keys: the stable sort, larger keys first, rows of equal key in the order
    they came. *)
Fixpoint insert_desc {A} (x : pyval * A) (l : list (pyval * A)) : list (pyval * A) :=
  match l with
  | [] => [x]
  | y :: l' => if py_lt (fst x) (fst y) then y :: insert_desc x l' else x :: l
  end.

Fixpoint sort_desc {A} (l : list (pyval * A)) : list (pyval * A) :=
  match l with
  | [] => []
  | x :: l' => insert_desc x (sort_desc l')
  end.

(** The keys are computed first, one call of [key] per row. *)
Fixpoint decorate {A} (key : A -> outcome pyval) (l : list A) : outcome (list (pyval * A)) :=
  match l with
  | [] => Ok []
  | a :: l' =>
      match key a with
      | Ok k =>
          match decorate key l' with
          | Ok d => Ok ((k, a) :: d)
          | Raise e => Raise e
          end
      | Raise e => Raise e
      end
  end.

Definition sorted_reverse {A} (l : list A) (key : A -> outcome pyval) : outcome (list A) :=
  match decorate key l with
  | Ok d => Ok (map snd (sort_desc d))
  | Raise e => Raise e
  end.

(** [l[:stop]] *)
Definition slice_to {A} (l : list A) (stop : Z) : list A :=
  firstn (Z.to_nat (if (stop <? 0)%Z then (Z.of_nat (List.length l) + stop)%Z else stop)) l.

Definition sum_Z (l : list Z) : Z := fold_left Z.add l 0%Z.

Definition append {A} (a : A) : M (list A) unit :=
  repos <- get ;; put (repos ++ [a]).

(** Lines 117-124 *)
Definition def_prop (fork : Fork.t) : list pyval :=
  [ PStr (Fork.html_url fork);
    PInt (Fork.stargazers_count fork);
    PInt (Fork.forks_count fork);
    PInt (Fork.open_issues_count fork);
    PStr (Fork.updated_at fork);
    PStr (Fork.pushed_at fork) ].

(** What each slow key asks the API for, per fork. *)
Definition count_branches (fork : Fork.t) : M (list Repo.t) Z :=
  emit (Call "branches" (Fork.html_url fork)) ;;
  bs <- list_of (Fork.branches fork) ;;
  ret (Z.of_nat (List.length bs)).

Definition count_watchers (gh : GitHub.t) (fork : Fork.t) : M (list Repo.t) Z :=
  emit (Call "repository" (Fork.html_url fork)) ;;
  repo <- lift (GitHub.repository gh (User.login (Fork.owner fork)) (Fork.name fork)) ;;
  ret (Repository.subscribers_count repo).

Definition count_commits (fork : Fork.t) : M (list Repo.t) Z :=
  emit (Call "contributors" (Fork.html_url fork)) ;;
  cs <- list_of (Fork.contributors fork) ;;
  ret (sum_Z (map Contributor.contributions_count cs)).

(** The body of a [try] of lines 127-144: append the metric, build the row,
    keep it. *)
Definition add_row (fields : list string) (fork : Fork.t) (metric : M (list Repo.t) Z)
    : M (list Repo.t) unit :=
  n <- metric ;;
  r <- lift (new_Repo fields (def_prop fork ++ [PInt n])) ;;
  append r.

(** Lines 116-146: one turn of the loop over the forks. *)
Definition top_fork (gh : GitHub.t) (sort : string) (fields : list string)
    (fork : Fork.t) : M (list Repo.t) unit :=
  if String.eqb sort "branches" then
    try_except_NotFoundError
      (add_row fields fork (count_branches fork))
      (echo [not_found_notice newline fork])
  else if String.eqb sort "watchers" then
    try_except_NotFoundError
      (add_row fields fork (count_watchers gh fork))
      (echo [not_found_notice newline fork])
  else if String.eqb sort "commits" then
    try_except_NotFoundError
      (add_row fields fork (count_commits fork))
      (echo [not_found_notice newline fork])
  else
    r <- lift (new_Repo fields (def_prop fork)) ;;
    append r.

Section Top.
(** [human k ts]: the relative form pendulum gives timestamp [ts] at the
    [k]-th conversion of the run (lines 151-154; it reads the clock). *)
Variable human : nat -> string -> string.

Definition humanize_date (k : nat) (fork : Repo.t) (name : string) : outcome pyval :=
  match getattr fork name with
  | Some (PStr ts) => Ok (PStr (human k ts))
  | Some (PInt _) => Raise TypeError
  | None => Raise AttributeError
  end.

(** Lines 151-155, for the row at position [k] of the table. *)
Definition humanize_fork (k : nat) (fork : Repo.t) : outcome Repo.t :=
  match humanize_date (2 * k) fork "updated_at" with
  | Ok human_updated_at =>
      match humanize_date (2 * k + 1) fork "pushed_at" with
      | Ok human_pushed_at =>
          Ok (_replace fork [("updated_at", human_updated_at);
                             ("pushed_at", human_pushed_at)])
      | Raise e => Raise e
      end
  | Raise e => Raise e
  end.

Fixpoint humanize_dates (k : nat) (l : list Repo.t) : outcome (list Repo.t) :=
  match l with
  | [] => Ok []
  | fork :: l' =>
      match humanize_fork k fork with
      | Ok h =>
          match humanize_dates (S k) l' with
          | Ok hs => Ok (h :: hs)
          | Raise e => Raise e
          end
      | Raise e => Raise e
      end
  end.

Definition top (repo_ctx : RepoCtx.t) (sort : string) (rows : Z) : M (list Repo.t) unit :=
  put [] ;;
  ch <- lift (top_columns sort) ;;
  let fields := fst ch in
  let headers := snd ch in
  for_each (RepoCtx.forks repo_ctx) (top_fork (RepoCtx.gh repo_ctx) sort fields) ;;
  repos <- get ;;
  sorted_forks <- lift (sorted_reverse repos (attrgetter sort)) ;;
  humanize_dates_forks <- lift (humanize_dates 0 (slice_to sorted_forks rows)) ;;
  emit (EchoTable humanize_dates_forks headers).
End Top.

(** ** [cli] *)

(** [s.split("/")] *)
Fixpoint split_slash (s : string) : list string :=
  match s with
  | EmptyString => [EmptyString]
  | String c s' =>
      match split_slash s' with
      | [] => [EmptyString]
      | w :: ws =>
          if Ascii.eqb c "/"%char then EmptyString :: w :: ws
          else String c w :: ws
      end
  end.

(** [s[1:]] *)
Definition tail_of (s : string) : string :=
  match s with
  | EmptyString => EmptyString
  | String _ s' => s'
  end.

(** Python's truth value of a string. *)
Definition truthy (s : string) : bool :=
  match s with
  | EmptyString => false
  | String _ _ => true
  end.

(** [gh.repository(owner, name)] of github3: it makes the request only
    [if owner and repository], and answers [None] otherwise. *)
Definition repository_or_None (gh : GitHub.t) (owner name : string)
    : outcome (option Repository.t) :=
  if truthy owner && truthy name then
    match GitHub.repository gh owner name with
    | Ok r => Ok (Some r)
    | Raise e => Raise e
    end
  else Ok None.

Section Cli.
(** [urlparse(url).path] *)
Variable urlparse_path : string -> string.

(** Lines 49-55.  [gh] is the session [github3.login] returned, by token
    or by the prompted credentials.  [None] has no [forks]. *)
Definition cli (gh : GitHub.t) (url : string) : M unit RepoCtx.t :=
  match split_slash (tail_of (urlparse_path url)) with
  | [login; repo] =>
      repository <- lift (repository_or_None gh login repo) ;;
      match repository with
      | Some repository =>
          let forks := Repository.forks repository in
          ret (RepoCtx.Make (StrObj repo) forks gh)
      | None => raise AttributeError
      end
  | _ => raise ValueError
  end.
End Cli.

(** ** What the statements say about a trace *)

(** The line [fnm] is to write for a commit: index, message, URL. *)
Definition entry (index : Z) (commit : Commit.t) : event :=
  Echo [PInt index; PStr (Commit.message commit); PStr (Commit.html_url commit)].

Definition is_entry_of (m : string) (ev : event) : bool :=
  match ev with
  | Echo [PInt _; PStr m'; PStr _] => String.eqb m' m
  | _ => false
  end.

(** How many commit entries of a trace carry message [m]. *)
Definition count_message (m : string) (t : list event) : nat :=
  List.length (filter (is_entry_of m) t).

(** The forks [fnm] gets past: the listing of commits ends, or fails with
    the one exception the loop handles. *)
Definition fnm_passes (fork : Fork.t) : Prop :=
  failure (Fork.commits fork) = None \/
  failure (Fork.commits fork) = Some NotFoundError.

(** The run [r] is the run [r'] with the events [evs] put in at one place:
    same variables at the end, same outcome. *)
Definition with_extra_events {S A} (evs : list event)
    (r r' : list event * S * outcome A) : Prop :=
  exists t1 t2,
    trace_of r = t1 ++ evs ++ t2 /\
    trace_of r' = t1 ++ t2 /\
    state_of r = state_of r' /\
    outcome_of r = outcome_of r'.

(** The context with one fork less in the listing. *)
Definition with_forks (repo_ctx : RepoCtx.t) (fs : list Fork.t) : RepoCtx.t :=
  RepoCtx.Make (RepoCtx.repository repo_ctx)
               (Listing fs (failure (RepoCtx.forks repo_ctx)))
               (RepoCtx.gh repo_ctx).

Definition is_slow (flag : sort_flag) : bool :=
  match flag with
  | Watchers_count | Commits | Branches => true
  | _ => false
  end.

Definition fixed_fields : list string :=
  ["html_url"; "stargazers_count"; "forks_count"; "open_issues_count";
   "updated_at"; "pushed_at"].

Definition fixed_headers : list string :=
  ["URL"; "Stars"; "Forks"; "Open Issues"; "Last update"; "Pushed At"].

Definition extra_header (flag : sort_flag) : list string :=
  match flag with
  | Watchers_count => ["Watchers"]
  | Commits => ["Commits"]
  | Branches => ["Branches"]
  | _ => []
  end.

Definition fields_of (flag : sort_flag) : list string :=
  fixed_fields ++ (if is_slow flag then [flag_value flag] else []).

(** The second request a slow key makes for a fork, and what comes back;
    [None] when the key makes none. *)
Definition secondary_method (flag : sort_flag) : string :=
  match flag with
  | Branches => "branches"
  | Watchers_count => "repository"
  | Commits => "contributors"
  | _ => EmptyString
  end.

Definition secondary (gh : GitHub.t) (flag : sort_flag) (fork : Fork.t)
    : option (outcome Z) :=
  match flag with
  | Branches =>
      Some match failure (Fork.branches fork) with
           | Some e => Raise e
           | None => Ok (Z.of_nat (List.length (yielded (Fork.branches fork))))
           end
  | Watchers_count =>
      Some match GitHub.repository gh (User.login (Fork.owner fork)) (Fork.name fork) with
           | Ok repo => Ok (Repository.subscribers_count repo)
           | Raise e => Raise e
           end
  | Commits =>
      Some match failure (Fork.contributors fork) with
           | Some e => Raise e
           | None => Ok (sum_Z (map Contributor.contributions_count
                                    (yielded (Fork.contributors fork))))
           end
  | _ => None
  end.

(** The row a fork contributes to [repos], if it does. *)
Definition kept_row (gh : GitHub.t) (flag : sort_flag) (fork : Fork.t) : option Repo.t :=
  match secondary gh flag fork with
  | None => Some (Repo.Make (fields_of flag) (def_prop fork))
  | Some (Ok n) => Some (Repo.Make (fields_of flag) (def_prop fork ++ [PInt n]))
  | Some (Raise _) => None
  end.

(** The rows of the forks of a listing, in the order of the listing. *)
Definition candidates (gh : GitHub.t) (flag : sort_flag) (fs : list Fork.t) : list Repo.t :=
  flat_map (fun f => match kept_row gh flag f with Some r => [r] | None => [] end) fs.

(** The forks [top] gets past under a key: no second request, or one that
    answers, or one that fails with the exception the loop handles. *)
Definition top_passes (gh : GitHub.t) (flag : sort_flag) (fork : Fork.t) : Prop :=
  forall e, secondary gh flag fork = Some (Raise e) -> e = NotFoundError.

Definition is_table (ev : event) : bool :=
  match ev with EchoTable _ _ => true | _ => false end.

Definition is_call (ev : event) : bool :=
  match ev with Call _ _ => true | _ => false end.

(** [a == b] on the values of a column. *)
Definition py_eqb (a b : pyval) : bool :=
  match a, b with
  | PInt x, PInt y => (x =? y)%Z
  | PStr x, PStr y => String.eqb x y
  | _, _ => false
  end.

(** Row [a] may stand before row [b] in a ranking by field [name], larger
    first: both have the field, and [a]'s value is not less than [b]'s. *)
Definition ranks_before (name : string) (a b : Repo.t) : Prop :=
  exists va vb,
    getattr a name = Some va /\ getattr b name = Some vb /\ py_lt va vb = false.

(** The rows whose field [name] is [v]. *)
Definition has_value (name : string) (v : pyval) (r : Repo.t) : bool :=
  match getattr r name with
  | Some v' => py_eqb v' v
  | None => false
  end.

(** Larger keys first, on rows paired with their keys. *)
Definition key_desc {A} (x y : pyval * A) : Prop := py_lt (fst x) (fst y) = false.

(** Row [h] is row [r] with its two dates in relative form and nothing else
    touched. *)
Definition humanized (human : nat -> string -> string) (r h : Repo.t) : Prop :=
  Repo.fields h = Repo.fields r /\
  (forall name, name <> "updated_at" -> name <> "pushed_at" ->
                getattr h name = getattr r name) /\
  (exists k ts, getattr r "updated_at" = Some (PStr ts) /\
                getattr h "updated_at" = Some (PStr (human k ts))) /\
  (exists k ts, getattr r "pushed_at" = Some (PStr ts) /\
                getattr h "pushed_at" = Some (PStr (human k ts))).

(** The tables of a trace, rows first. *)
Fixpoint tables (t : list event) : list (list Repo.t * list string) :=
  match t with
  | [] => []
  | EchoTable rows headers :: t' => (rows, headers) :: tables t'
  | _ :: t' => tables t'
  end.

(** The fork yields a commit whose message upstream lacks: [fnm] has
    something to report for it. *)
Definition reports (repo_message : list string) (fork : Fork.t) : bool :=
  existsb (fun c => negb (contains repo_message (Commit.message c)))
          (yielded (Fork.commits fork)).

(** The forks the loop of [fnm] gets past: nothing to report, and a listing
    of commits that ends or fails with the one exception the loop handles. *)
Definition fnm_quiet (repo_message : list string) (fork : Fork.t) : Prop :=
  reports repo_message fork = false /\ fnm_passes fork.

(** What a fork that [fnm] gets past adds to the trace. *)
Definition fork_turn (fork : Fork.t) : list event :=
  Call "commits" (Fork.html_url fork)
  :: match failure (Fork.commits fork) with
     | Some NotFoundError => [Echo [not_found_notice EmptyString fork]]
     | _ => []
     end.

(** ** Sample data

    A repository with three forks: alice's carries one message twice, bob's
    is the profile the API lists but cannot find, carol's ties with alice's
    on stars. *)
Module Sample.
Definition ended {A} (l : list A) : listing A := Listing l None.

Definition fork_of (url who : string) (stars : Z) (updated : string)
    (commits : listing Commit.t) (branches : listing Branch.t) : Fork.t :=
  Fork.Make url (User.Make who) "forkwork" stars 1 2 updated "2020-01-01T00:00:00Z"
    commits branches
    (ended [Contributor.Make 3; Contributor.Make 4]).

Definition alice : Fork.t :=
  fork_of "https://github.com/alice/forkwork" "alice" 5 "2021-03-01T00:00:00Z"
    (ended [Commit.Make "init" "c1"; Commit.Make "fix" "c2"; Commit.Make "fix" "c3"])
    (ended [Branch.Make "master"; Branch.Make "dev"]).

Definition bob : Fork.t :=
  fork_of "https://github.com/bob/forkwork" "bob" 7 "2019-06-01T00:00:00Z"
    (Listing [] (Some NotFoundError))
    (Listing [] (Some NotFoundError)).

Definition carol : Fork.t :=
  fork_of "https://github.com/carol/forkwork" "carol" 5 "2022-01-01T00:00:00Z"
    (ended [Commit.Make "init" "c1"; Commit.Make "feat" "c9"])
    (ended [Branch.Make "master"]).

(** A fork whose listings break on a failure other than not-found. *)
Definition dave : Fork.t :=
  fork_of "https://github.com/dave/forkwork" "dave" 1 "2018-01-01T00:00:00Z"
    (Listing [] (Some (OtherError "ConnectionError")))
    (Listing [] (Some (OtherError "ConnectionError"))).

Definition upstream : Repository.t :=
  Repository.Make "https://github.com/andriyor/forkwork"
    (ended [Commit.Make "init" "c0"]) (ended [alice; bob; carol]) 9.

Definition gh : GitHub.t :=
  GitHub.Make (fun login name =>
    if String.eqb login "bob" then Raise NotFoundError else Ok upstream).

Definition repo_message : list string :=
  map Commit.message (yielded (Repository.commits upstream)).

(** The context [fnm] is written for. *)
Definition repo_ctx : RepoCtx.t :=
  RepoCtx.Make (RepositoryObj upstream) (Repository.forks upstream) gh.

(** The same, with a fork that cannot be reached; with an upstream whose
    commits are not found; with a listing of forks that breaks off. *)
Definition dave_ctx : RepoCtx.t :=
  RepoCtx.Make (RepositoryObj upstream) (ended [alice; dave; carol]) gh.

Definition lost_upstream : Repository.t :=
  Repository.Make "https://github.com/andriyor/forkwork"
    (Listing [] (Some NotFoundError)) (ended [alice]) 9.

Definition lost_ctx : RepoCtx.t :=
  RepoCtx.Make (RepositoryObj lost_upstream) (ended [alice]) gh.

Definition cut_ctx : RepoCtx.t :=
  RepoCtx.Make (RepositoryObj upstream)
    (Listing [alice; carol] (Some (OtherError "ConnectionError"))) gh.

Definition url : string := "https://github.com/andriyor/forkwork".

(** The context [cli] builds for that URL. *)
Definition cli_ctx : RepoCtx.t :=
  RepoCtx.Make (StrObj "forkwork") (Repository.forks upstream) gh.

Definition urlparse_path (u : string) : string := "/andriyor/forkwork".

Definition human (k : nat) (ts : string) : string := ts ++ " ago".

(** The rows of the table [top] writes for a key and a row limit. *)
Definition table_of (flag : sort_flag) (rows : Z) : list Repo.t :=
  match tables (trace_of (top human repo_ctx (flag_value flag) rows [])) with
  | (table, _) :: _ => table
  | [] => []
  end.

Definition star_table : list Repo.t := Eval vm_compute in table_of Star 10.

Definition watchers_table : list Repo.t := Eval vm_compute in table_of Watchers_count 10.

Definition star_headers : list string :=
  ["URL"; "Stars"; "Forks"; "Open Issues"; "Last update"; "Pushed At"].

Definition watchers_headers : list string := star_headers ++ ["Watchers"].
End Sample.

(** ** What the further statements say *)

(** How many ["/"] a string has. *)
Fixpoint count_slash (s : string) : nat :=
  match s with
  | EmptyString => 0
  | String c s' => (if Ascii.eqb c "/"%char then 1 else 0) + count_slash s'
  end.

(** ["/".join(pieces)] *)
Fixpoint join_slash (pieces : list string) : string :=
  match pieces with
  | [] => EmptyString
  | [w] => w
  | w :: ws => w ++ String "/"%char (join_slash ws)
  end.

(** What one fork adds to the trace of [top] before the table. *)
Definition fork_requests (gh : GitHub.t) (flag : sort_flag) (fork : Fork.t) : list event :=
  match secondary gh flag fork with
  | None => []
  | Some (Ok _) => [Call (secondary_method flag) (Fork.html_url fork)]
  | Some (Raise _) =>
      [Call (secondary_method flag) (Fork.html_url fork);
       Echo [not_found_notice newline fork]]
  end.

(** More sample data: a path with a slash too many, a path without a name,
    the listing of two forks in both orders. *)
Module Cases.
Definition urlparse_trailing (u : string) : string := "/andriyor/forkwork/".

Definition urlparse_no_name (u : string) : string := "/andriyor/".

Definition reordered_ctx : RepoCtx.t :=
  RepoCtx.Make (RepositoryObj Sample.upstream)
    (Sample.ended [Sample.bob; Sample.alice]) Sample.gh.

Definition two_ctx : RepoCtx.t :=
  RepoCtx.Make (RepositoryObj Sample.upstream)
    (Sample.ended [Sample.alice; Sample.bob]) Sample.gh.

Definition two_table : list Repo.t :=
  Eval vm_compute in
    match tables (trace_of (top Sample.human two_ctx (flag_value Star) 10 [])) with
    | (table, _) :: _ => table
    | [] => []
    end.

End Cases.

(** Forks [fnm] gets past: frank's one commit carries the upstream message.
    With them, a context whose third fork breaks the connection and one
    whose listing of forks breaks off. *)
Module Quiet.
Definition frank : Fork.t :=
  Sample.fork_of "https://github.com/frank/forkwork" "frank" 2 "2016-01-01T00:00:00Z"
    (Sample.ended [Commit.Make "init" "c1"])
    (Sample.ended [Branch.Make "master"]).

Definition dave_ctx : RepoCtx.t :=
  RepoCtx.Make (RepositoryObj Sample.upstream)
    (Sample.ended [frank; Sample.bob; Sample.dave; Sample.carol]) Sample.gh.

Definition cut_ctx : RepoCtx.t :=
  RepoCtx.Make (RepositoryObj Sample.upstream)
    (Listing [frank; Sample.bob] (Some (OtherError "ConnectionError"))) Sample.gh.
End Quiet.

(** * Properties *)

Unset Implicit Arguments.

(** Finds a given event in a trace that computes. *)
Ltac find_in_trace :=
  vm_compute; repeat first [ left; reflexivity | right ].

(** ** Runs of the monad *)

Lemma bind_run {S A B} (m : M S A) (k : A -> M S B) (s : S) :
  bind m k s =
  match m s with
  | (t, s', Ok a) => (t ++ trace_of (k a s'), state_of (k a s'), outcome_of (k a s'))
  | (t, s', Raise e) => (t, s', Raise e)
  end.
Proof.
  unfold bind, trace_of, state_of, outcome_of.
  destruct (m s) as [[t s'] [a | e]]; [ | reflexivity ].
  destruct (k a s') as [[t' s''] r]; reflexivity.
Qed.

Lemma emit_bind {S B} (ev : event) (k : unit -> M S B) (s : S) :
  bind (emit ev) k s = (ev :: trace_of (k tt s), state_of (k tt s), outcome_of (k tt s)).
Proof. rewrite bind_run. reflexivity. Qed.

Lemma run_eta {S A} (r : list event * S * outcome A) :
  r = (trace_of r, state_of r, outcome_of r).
Proof. destruct r as [[t s] o]; reflexivity. Qed.

Lemma for_in_app {S A} (body : A -> M S unit) (l1 l2 : list A) (s : S) :
  for_in (l1 ++ l2) body s = bind (for_in l1 body) (fun _ => for_in l2 body) s.
Proof.
  revert s; induction l1 as [ | a l1 IH ]; intros s.
  - cbn [app for_in]. rewrite bind_run. unfold ret. cbn. apply run_eta.
  - cbn [app for_in]. rewrite !bind_run.
    destruct (body a s) as [[t s'] [[] | e]]; [ | reflexivity ].
    rewrite IH, !bind_run.
    destruct (for_in l1 body s') as [[t1 s1] [[] | e1]]; cbn.
    + now rewrite app_assoc.
    + reflexivity.
Qed.

(** A loop whose turns all end well ends well, and its trace is the
    turns' traces in order. *)
Lemma for_in_cons_ok {S A} (body : A -> M S unit) a l s t s' :
  body a s = (t, s', Ok tt) ->
  for_in (a :: l) body s =
  (t ++ trace_of (for_in l body s'), state_of (for_in l body s'),
   outcome_of (for_in l body s')).
Proof. intros H. cbn [for_in]. now rewrite bind_run, H. Qed.

(** Every event of a loop is an event of one of its turns. *)
Lemma for_in_trace_Forall {S A} (P : event -> Prop) (body : A -> M S unit) l :
  (forall a s, In a l -> Forall P (trace_of (body a s))) ->
  forall s, Forall P (trace_of (for_in l body s)).
Proof.
  induction l as [ | a l IH ]; intros HP s.
  - constructor.
  - cbn [for_in]. rewrite bind_run.
    pose proof (HP a s (or_introl eq_refl)) as Ha.
    destruct (body a s) as [[t s'] [[] | e]]; cbn in *; [ | exact Ha ].
    apply Forall_app; split; [ exact Ha | ].
    apply IH. intros; apply HP; now right.
Qed.

(** ** [fnm] *)

Lemma contains_spec l x : contains l x = true <-> In x l.
Proof.
  unfold contains. rewrite existsb_exists. split.
  - intros (y & Hy & E). apply String.eqb_eq in E. now subst.
  - intros H. exists x. split; [ exact H | apply String.eqb_refl ].
Qed.

Lemma contains_false l x : contains l x = false <-> ~ In x l.
Proof.
  rewrite <- contains_spec. destruct (contains l x); split; congruence.
Qed.

(** The body of the inner loop: a commit whose message upstream has passes
    in silence; for any other commit the first [click.echo] reached, the
    header's or the entry's, is given a string for its file and raises,
    before anything is written or assigned. *)
Lemma fnm_commit_run (repo_message : list string) (fork : Fork.t) index commit s :
  fnm_commit repo_message fork (index, commit) s =
  if contains repo_message (Commit.message commit) then ([], s, Ok tt)
  else ([], s, Raise AttributeError).
Proof.
  unfold fnm_commit.
  destruct (contains repo_message (Commit.message commit)); cbn [negb]; [ reflexivity | ].
  unfold bind at 1, get.
  destruct (String.eqb s (User.login (Fork.owner fork))); reflexivity.
Qed.

Lemma fnm_commits_run (repo_message : list string) (fork : Fork.t) cs :
  forall start s,
    for_in (enumerate_from start cs) (fnm_commit repo_message fork) s =
    ([], s,
     if existsb (fun c => negb (contains repo_message (Commit.message c))) cs
     then Raise AttributeError else Ok tt).
Proof.
  induction cs as [ | c cs IH ]; intros start s; [ reflexivity | ].
  cbn [enumerate_from for_in existsb]. rewrite bind_run, fnm_commit_run.
  destruct (contains repo_message (Commit.message c)); cbn [negb orb]; [ | reflexivity ].
  rewrite IH. reflexivity.
Qed.

(** One turn of the loop over the forks, spelled out. *)
Lemma fnm_fork_run (repo_message : list string) (fork : Fork.t) s :
  fnm_fork repo_message fork s =
  if reports repo_message fork
  then ([Call "commits" (Fork.html_url fork)], s, Raise AttributeError)
  else match failure (Fork.commits fork) with
       | None => ([Call "commits" (Fork.html_url fork)], s, Ok tt)
       | Some e =>
           if is_NotFoundError e
           then ([Call "commits" (Fork.html_url fork);
                  Echo [not_found_notice EmptyString fork]], s, Ok tt)
           else ([Call "commits" (Fork.html_url fork)], s, Raise e)
       end.
Proof.
  unfold fnm_fork, try_except_NotFoundError, for_each, reports.
  rewrite emit_bind, bind_run. cbn [enumerate yielded failure].
  rewrite fnm_commits_run.
  destruct (existsb _ (yielded (Fork.commits fork))); [ reflexivity | ].
  destruct (failure (Fork.commits fork)) as [ e | ]; [ | reflexivity ].
  cbn. destruct (is_NotFoundError e); reflexivity.
Qed.

Lemma fnm_fork_quiet repo_message fork s :
  fnm_quiet repo_message fork ->
  fnm_fork repo_message fork s = (fork_turn fork, s, Ok tt).
Proof.
  intros [Hr Hp]. rewrite fnm_fork_run, Hr. unfold fork_turn.
  destruct Hp as [ -> | -> ]; reflexivity.
Qed.

Lemma fnm_forks_quiet repo_message fs :
  Forall (fnm_quiet repo_message) fs ->
  forall s, for_in fs (fnm_fork repo_message) s = (flat_map fork_turn fs, s, Ok tt).
Proof.
  induction 1 as [ | f fs Hf _ IH ]; intros s; [ reflexivity | ].
  cbn [for_in flat_map]. rewrite bind_run, (fnm_fork_quiet _ _ _ Hf), IH. reflexivity.
Qed.

(** The loop stops at the first fork it does not get past; the forks after
    it are not asked for anything. *)
Lemma fnm_forks_stop repo_message before fork after t e :
  Forall (fnm_quiet repo_message) before ->
  (forall s, fnm_fork repo_message fork s = (t, s, Raise e)) ->
  forall s,
    for_in (before ++ fork :: after) (fnm_fork repo_message) s
    = (flat_map fork_turn before ++ t, s, Raise e).
Proof.
  intros Hb Hf s. rewrite for_in_app, bind_run, (fnm_forks_quiet _ _ Hb).
  cbn [trace_of state_of outcome_of fst snd for_in]. now rewrite bind_run, Hf.
Qed.

Lemma for_each_trace {S A} (it : listing A) (body : A -> M S unit) (s : S) :
  trace_of (for_each it body s) = trace_of (for_in (yielded it) body s).
Proof.
  unfold for_each. rewrite bind_run.
  destruct (for_in (yielded it) body s) as [[t s'] [[] | e]]; [ | reflexivity ].
  destruct (failure it); cbn; apply app_nil_r.
Qed.

(** With a repository in the context and its commits listed, [fnm] is the
    loop over the forks, run on the upstream messages. *)
Lemma fnm_run repo_ctx r s0 :
  RepoCtx.repository repo_ctx = RepositoryObj r ->
  failure (Repository.commits r) = None ->
  let loop := for_each (RepoCtx.forks repo_ctx)
                (fnm_fork (map Commit.message (yielded (Repository.commits r))))
                EmptyString in
  fnm repo_ctx s0 =
  (Call "commits" (Repository.html_url r) :: trace_of loop, state_of loop, outcome_of loop).
Proof.
  intros Hr Hc loop. unfold fnm. rewrite Hr. unfold commits_of, comprehension, list_of.
  rewrite bind_run, emit_bind. unfold ret at 1. cbn [trace_of state_of outcome_of fst snd].
  rewrite Hc. cbn. fold loop. now destruct loop as [[t s] o].
Qed.

Lemma fnm_upstream_raises repo_ctx r e s0 :
  RepoCtx.repository repo_ctx = RepositoryObj r ->
  failure (Repository.commits r) = Some e ->
  fnm repo_ctx s0 = ([Call "commits" (Repository.html_url r)], s0, Raise e).
Proof.
  intros Hr Hc. unfold fnm. rewrite Hr. unfold commits_of, comprehension, list_of.
  rewrite bind_run, emit_bind. unfold ret at 1. cbn [trace_of state_of outcome_of fst snd].
  rewrite Hc. reflexivity.
Qed.

Lemma fnm_on_a_string repo_ctx name s0 :
  RepoCtx.repository repo_ctx = StrObj name ->
  fnm repo_ctx s0 = ([], s0, Raise AttributeError).
Proof. intros Hr. unfold fnm. now rewrite Hr. Qed.

(** Whatever the context, [fnm] writes nothing but one-argument messages:
    no header, no commit entry. *)
Lemma fnm_trace_messages repo_ctx s0 :
  Forall (fun ev => forall m, is_entry_of m ev = false) (trace_of (fnm repo_ctx s0)).
Proof.
  destruct (RepoCtx.repository repo_ctx) as [ name | r ] eqn:Hr.
  - rewrite (fnm_on_a_string _ _ _ Hr). constructor.
  - destruct (failure (Repository.commits r)) as [ e | ] eqn:Hc.
    + rewrite (fnm_upstream_raises _ _ _ _ Hr Hc). repeat constructor.
    + rewrite (fnm_run _ _ _ Hr Hc). cbn [trace_of fst].
      constructor; [ reflexivity | ]. rewrite for_each_trace.
      apply for_in_trace_Forall. intros f s _. rewrite fnm_fork_run.
      destruct (reports _ f); [ repeat constructor | ].
      destruct (failure (Fork.commits f)) as [ e | ]; [ | repeat constructor ].
      destruct (is_NotFoundError e); repeat constructor.
Qed.

Lemma fnm_no_entry repo_ctx s0 index commit :
  ~ In (entry index commit) (trace_of (fnm repo_ctx s0)).
Proof.
  intros Hin. pose proof (fnm_trace_messages repo_ctx s0) as H.
  rewrite Forall_forall in H. specialize (H _ Hin (Commit.message commit)).
  cbn in H. now rewrite String.eqb_refl in H.
Qed.

Lemma fnm_count_message repo_ctx s0 m :
  count_message m (trace_of (fnm repo_ctx s0)) = 0.
Proof.
  pose proof (fnm_trace_messages repo_ctx s0) as H. unfold count_message.
  induction H as [ | ev t Hev _ IH ]; [ reflexivity | ].
  cbn [filter]. now rewrite Hev.
Qed.

Lemma reports_spec repo_message fork :
  reports repo_message fork = true <->
  exists c, In c (yielded (Fork.commits fork)) /\
            ~ In (Commit.message c) repo_message.
Proof.
  unfold reports. rewrite existsb_exists. split; intros (c & Hc & H); exists c.
  - split; [ exact Hc | ]. apply contains_false. now destruct (contains _ _).
  - split; [ exact Hc | ]. apply contains_false in H. now rewrite H.
Qed.

(** With the forks before it passed, a fork that has something to report
    ends the run of [fnm]. *)
Lemma fnm_stops repo_ctx r before fork after s0 :
  RepoCtx.repository repo_ctx = RepositoryObj r ->
  failure (Repository.commits r) = None ->
  yielded (RepoCtx.forks repo_ctx) = before ++ fork :: after ->
  Forall (fnm_quiet (map Commit.message (yielded (Repository.commits r)))) before ->
  reports (map Commit.message (yielded (Repository.commits r))) fork = true ->
  fnm repo_ctx s0 =
  (Call "commits" (Repository.html_url r)
     :: flat_map fork_turn before ++ [Call "commits" (Fork.html_url fork)],
   EmptyString, Raise AttributeError).
Proof.
  intros Hr Hc Hf Hb Hrep. rewrite (fnm_run _ _ _ Hr Hc). cbn zeta.
  unfold for_each. rewrite bind_run, Hf.
  rewrite (fnm_forks_stop _ _ _ _ [Call "commits" (Fork.html_url fork)] AttributeError Hb).
  - reflexivity.
  - intros s. now rewrite fnm_fork_run, Hrep.
Qed.

(** C1 fails on the code: [fnm] writes no entry for any message.  For a
    fork the loop reaches that carries, on one commit or on several, a
    message upstream lacks, [click.echo] is called with the login (for the
    header) or the message (for the entry) where its file goes, raises
    [AttributeError], and the run ends there with no entry written; and
    whatever the context, the output of [fnm] holds no entry at all. *)
Theorem fnm_writes_no_entry
    (repo_ctx : RepoCtx.t) (r : Repository.t) (before : list Fork.t)
    (fork : Fork.t) (after : list Fork.t) (m : string) (s0 : string) :
  RepoCtx.repository repo_ctx = RepositoryObj r ->
  failure (Repository.commits r) = None ->
  yielded (RepoCtx.forks repo_ctx) = before ++ fork :: after ->
  Forall (fnm_quiet (map Commit.message (yielded (Repository.commits r)))) before ->
  In m (map Commit.message (yielded (Fork.commits fork))) ->
  ~ In m (map Commit.message (yielded (Repository.commits r))) ->
  outcome_of (fnm repo_ctx s0) = Raise AttributeError /\
  count_message m (trace_of (fnm repo_ctx s0)) = 0 /\
  (forall (any_ctx : RepoCtx.t) (s : string) (m' : string),
     count_message m' (trace_of (fnm any_ctx s)) = 0).
Proof.
  intros Hr Hc Hf Hb Hin Hm. split; [ | split ].
  - rewrite (fnm_stops _ _ _ _ _ _ Hr Hc Hf Hb); [ reflexivity | ].
    apply reports_spec. apply in_map_iff in Hin. destruct Hin as (c & <- & Hcin).
    now exists c.
  - apply fnm_count_message.
  - intros any_ctx s m'. apply fnm_count_message.
Qed.

Lemma fnm_writes_no_entry_witness :
  outcome_of (fnm Sample.repo_ctx EmptyString) = Raise AttributeError /\
  count_message "fix" (trace_of (fnm Sample.repo_ctx EmptyString)) = 0 /\
  (forall (any_ctx : RepoCtx.t) (s : string) (m' : string),
     count_message m' (trace_of (fnm any_ctx s)) = 0).
Proof.
  apply (fnm_writes_no_entry Sample.repo_ctx Sample.upstream
           [] Sample.alice [Sample.bob; Sample.carol] "fix" EmptyString).
  - reflexivity.
  - reflexivity.
  - reflexivity.
  - constructor.
  - cbn. tauto.
  - apply contains_false. reflexivity.
Defined.

(** C5 fails on the code: a fork's commit whose message no upstream commit
    has is not reported.  With the forks before its fork passed, the run
    ends at that fork with [AttributeError] and the commit's entry is not in
    the output; no run of [fnm], on any context, writes any entry.  (The
    other half holds for want of entries: a commit whose message upstream
    has is not reported either.) *)
Theorem fnm_reports_no_commit
    (repo_ctx : RepoCtx.t) (r : Repository.t) (before : list Fork.t)
    (fork : Fork.t) (after : list Fork.t) (i : nat) (commit : Commit.t) (s0 : string) :
  RepoCtx.repository repo_ctx = RepositoryObj r ->
  failure (Repository.commits r) = None ->
  yielded (RepoCtx.forks repo_ctx) = before ++ fork :: after ->
  Forall (fnm_quiet (map Commit.message (yielded (Repository.commits r)))) before ->
  nth_error (yielded (Fork.commits fork)) i = Some commit ->
  ~ In (Commit.message commit) (map Commit.message (yielded (Repository.commits r))) ->
  ~ In (entry (1 + Z.of_nat i) commit) (trace_of (fnm repo_ctx s0)) /\
  outcome_of (fnm repo_ctx s0) = Raise AttributeError /\
  (forall (any_ctx : RepoCtx.t) (s : string) (index : Z) (c : Commit.t),
     ~ In (entry index c) (trace_of (fnm any_ctx s))).
Proof.
  intros Hr Hc Hf Hb Hn Hm. split; [ apply fnm_no_entry | split ].
  - rewrite (fnm_stops _ _ _ _ _ _ Hr Hc Hf Hb); [ reflexivity | ].
    apply reports_spec. exists commit. split; [ | exact Hm ].
    eapply nth_error_In. exact Hn.
  - intros any_ctx s index c. apply fnm_no_entry.
Qed.

Lemma fnm_reports_no_commit_witness :
  ~ In (entry 2 (Commit.Make "fix" "c2")) (trace_of (fnm Sample.repo_ctx EmptyString)) /\
  outcome_of (fnm Sample.repo_ctx EmptyString) = Raise AttributeError /\
  (forall (any_ctx : RepoCtx.t) (s : string) (index : Z) (c : Commit.t),
     ~ In (entry index c) (trace_of (fnm any_ctx s))).
Proof.
  apply (fnm_reports_no_commit Sample.repo_ctx Sample.upstream
           [] Sample.alice [Sample.bob; Sample.carol] 1 (Commit.Make "fix" "c2")
           EmptyString).
  - reflexivity.
  - reflexivity.
  - reflexivity.
  - constructor.
  - reflexivity.
  - apply contains_false. reflexivity.
Defined.

(** ** [cli] and the context it leaves *)

(** C4 fails on the code: whenever [cli] succeeds, the [repository] field of
    the context holds the repository's name, a string, not the repository
    it fetched, and [fnm] stops on its first line with [AttributeError]
    before it lists any commit. *)
Theorem cli_context_holds_the_name
    (urlparse_path : string -> string) (gh : GitHub.t) (url : string)
    (t : list event) (repo_ctx : RepoCtx.t) :
  cli urlparse_path gh url tt = (t, tt, Ok repo_ctx) ->
  (exists login repo fetched,
     split_slash (tail_of (urlparse_path url)) = [login; repo] /\
     GitHub.repository gh login repo = Ok fetched /\
     RepoCtx.repository repo_ctx = StrObj repo /\
     RepoCtx.forks repo_ctx = Repository.forks fetched) /\
  forall s0, fnm repo_ctx s0 = ([], s0, Raise AttributeError).
Proof.
  unfold cli. intros H.
  destruct (split_slash (tail_of (urlparse_path url))) as [ | login [ | repo [ | ? ? ] ] ];
    try discriminate H.
  rewrite bind_run in H. unfold lift, repository_or_None in H.
  destruct (truthy login && truthy repo); [ | discriminate H ].
  destruct (GitHub.repository gh login repo) as [ fetched | e ] eqn:E; [ | discriminate H ].
  cbn in H. injection H as _ <-. split.
  - exists login, repo, fetched. repeat split; assumption.
  - intros s0. reflexivity.
Qed.

Lemma cli_context_holds_the_name_witness :
  (exists login repo fetched,
     split_slash (tail_of (Sample.urlparse_path Sample.url)) = [login; repo] /\
     GitHub.repository Sample.gh login repo = Ok fetched /\
     RepoCtx.repository Sample.cli_ctx = StrObj repo /\
     RepoCtx.forks Sample.cli_ctx = Repository.forks fetched) /\
  forall s0, fnm Sample.cli_ctx s0 = ([], s0, Raise AttributeError).
Proof.
  apply (cli_context_holds_the_name Sample.urlparse_path Sample.gh Sample.url []).
  reflexivity.
Defined.

(** ** [top]: the columns and the loop over the forks *)

Lemma top_columns_flag (flag : sort_flag) :
  top_columns (flag_value flag) = Ok (fields_of flag, fixed_headers ++ extra_header flag).
Proof. destruct flag; reflexivity. Qed.

Lemma list_of_run {S A} (it : listing A) (s : S) :
  list_of it s =
  match failure it with
  | Some e => ([], s, Raise e)
  | None => ([], s, Ok (yielded it))
  end.
Proof. unfold list_of. rewrite bind_run. destruct (failure it); reflexivity. Qed.

Lemma add_row_run fields fork (metric : M (list Repo.t) Z) t (o : outcome Z) repos :
  (forall s, metric s = (t, s, o)) ->
  List.length fields = 7 ->
  try_except_NotFoundError (add_row fields fork metric)
    (echo [not_found_notice newline fork]) repos =
  match o with
  | Ok n => (t, repos ++ [Repo.Make fields (def_prop fork ++ [PInt n])], Ok tt)
  | Raise e =>
      if is_NotFoundError e
      then (t ++ [Echo [not_found_notice newline fork]], repos, Ok tt)
      else (t, repos, Raise e)
  end.
Proof.
  intros Hm Hlen. unfold try_except_NotFoundError, add_row.
  rewrite bind_run, Hm. destruct o as [ n | e ].
  - rewrite bind_run. unfold lift, new_Repo. rewrite length_app, Hlen. cbn.
    now rewrite app_nil_r.
  - destruct (is_NotFoundError e); reflexivity.
Qed.

Lemma count_branches_run fork s :
  count_branches fork s =
  ([Call "branches" (Fork.html_url fork)], s,
   match failure (Fork.branches fork) with
   | Some e => Raise e
   | None => Ok (Z.of_nat (List.length (yielded (Fork.branches fork))))
   end).
Proof.
  unfold count_branches. rewrite emit_bind, bind_run, list_of_run.
  destruct (failure (Fork.branches fork)); reflexivity.
Qed.

Lemma count_watchers_run gh fork s :
  count_watchers gh fork s =
  ([Call "repository" (Fork.html_url fork)], s,
   match GitHub.repository gh (User.login (Fork.owner fork)) (Fork.name fork) with
   | Ok repo => Ok (Repository.subscribers_count repo)
   | Raise e => Raise e
   end).
Proof.
  unfold count_watchers. rewrite emit_bind, bind_run. unfold lift.
  destruct (GitHub.repository gh _ _); reflexivity.
Qed.

Lemma count_commits_run fork s :
  count_commits fork s =
  ([Call "contributors" (Fork.html_url fork)], s,
   match failure (Fork.contributors fork) with
   | Some e => Raise e
   | None => Ok (sum_Z (map Contributor.contributions_count
                            (yielded (Fork.contributors fork))))
   end).
Proof.
  unfold count_commits. rewrite emit_bind, bind_run, list_of_run.
  destruct (failure (Fork.contributors fork)); reflexivity.
Qed.

(** One turn of the loop of [top], spelled out. *)
Lemma top_fork_run gh flag fork repos :
  top_fork gh (flag_value flag) (fields_of flag) fork repos =
  match secondary gh flag fork with
  | None => ([], repos ++ [Repo.Make (fields_of flag) (def_prop fork)], Ok tt)
  | Some (Ok n) =>
      ([Call (secondary_method flag) (Fork.html_url fork)],
       repos ++ [Repo.Make (fields_of flag) (def_prop fork ++ [PInt n])], Ok tt)
  | Some (Raise e) =>
      if is_NotFoundError e
      then ([Call (secondary_method flag) (Fork.html_url fork);
             Echo [not_found_notice newline fork]], repos, Ok tt)
      else ([Call (secondary_method flag) (Fork.html_url fork)], repos, Raise e)
  end.
Proof.
  destruct flag; try reflexivity; unfold top_fork, secondary;
    cbn [flag_value String.eqb Ascii.eqb Bool.eqb secondary_method].
  - erewrite add_row_run;
      [ | intros s; apply count_watchers_run | reflexivity ].
    destruct (GitHub.repository gh _ _) as [ repo | e ]; [ | destruct (is_NotFoundError e) ];
      reflexivity.
  - erewrite add_row_run;
      [ | intros s; apply count_commits_run | reflexivity ].
    destruct (failure (Fork.contributors fork)) as [ e | ]; [ destruct (is_NotFoundError e) | ];
      reflexivity.
  - erewrite add_row_run;
      [ | intros s; apply count_branches_run | reflexivity ].
    destruct (failure (Fork.branches fork)) as [ e | ]; [ destruct (is_NotFoundError e) | ];
      reflexivity.
Qed.

Lemma put_bind {S B} (s' : S) (k : unit -> M S B) (s : S) :
  bind (put s') k s = k tt s'.
Proof. unfold bind, put. now destruct (k tt s') as [[t s''] r]. Qed.

Lemma get_bind {S B} (k : S -> M S B) (s : S) :
  bind get k s = k s s.
Proof. unfold bind, get. now destruct (k s s) as [[t s''] r]. Qed.

Lemma lift_bind {S A B} (o : outcome A) (k : A -> M S B) (s : S) :
  bind (lift o) k s =
  match o with
  | Ok a => k a s
  | Raise e => ([], s, Raise e)
  end.
Proof.
  unfold bind, lift. destruct o as [ a | e ]; [ | reflexivity ].
  now destruct (k a s) as [[t s''] r].
Qed.

Lemma for_each_run {S A} (it : listing A) (body : A -> M S unit) (s : S) :
  for_each it body s =
  match outcome_of (for_in (yielded it) body s), failure it with
  | Ok _, Some e =>
      (trace_of (for_in (yielded it) body s), state_of (for_in (yielded it) body s), Raise e)
  | _, _ => for_in (yielded it) body s
  end.
Proof.
  unfold for_each. rewrite bind_run.
  destruct (for_in (yielded it) body s) as [[t s'] [[] | e]]; [ | reflexivity ].
  destruct (failure it); cbn; now rewrite app_nil_r.
Qed.

(** The loop of [top] keeps, in order, the rows of the forks it gets past. *)
Lemma top_loop_passes gh flag fs :
  Forall (top_passes gh flag) fs ->
  forall repos,
    state_of (for_in fs (top_fork gh (flag_value flag) (fields_of flag)) repos)
      = repos ++ candidates gh flag fs /\
    outcome_of (for_in fs (top_fork gh (flag_value flag) (fields_of flag)) repos) = Ok tt.
Proof.
  induction 1 as [ | f fs Hf Hfs IH ]; intros repos.
  - cbn. now rewrite app_nil_r.
  - cbn [for_in]. rewrite bind_run, top_fork_run.
    unfold candidates. cbn [flat_map]. fold (candidates gh flag fs).
    unfold kept_row. red in Hf.
    destruct (secondary gh flag f) as [ [ n | e ] | ].
    + cbn [state_of outcome_of fst snd]. destruct (IH (repos ++
        [Repo.Make (fields_of flag) (def_prop f ++ [PInt n])])) as [-> ->].
      now rewrite <- app_assoc.
    + rewrite (Hf e eq_refl). cbn [is_NotFoundError state_of outcome_of fst snd app].
      apply IH.
    + cbn [state_of outcome_of fst snd]. destruct (IH (repos ++
        [Repo.Make (fields_of flag) (def_prop f)])) as [-> ->].
      now rewrite <- app_assoc.
Qed.

Lemma top_loop_ok gh flag fs :
  forall repos,
    outcome_of (for_in fs (top_fork gh (flag_value flag) (fields_of flag)) repos) = Ok tt ->
    Forall (top_passes gh flag) fs.
Proof.
  induction fs as [ | f fs IH ]; intros repos H; [ constructor | ].
  cbn [for_in] in H. rewrite bind_run, top_fork_run in H.
  destruct (secondary gh flag f) as [ [ n | e ] | ] eqn:E.
  - constructor; [ | exact (IH _ H) ].
    intros e' He'. rewrite E in He'. discriminate He'.
  - destruct (is_NotFoundError e) eqn:Ee; [ | discriminate H ].
    constructor; [ | exact (IH _ H) ].
    intros e' He'. rewrite E in He'. injection He' as <-. now destruct e.
  - constructor; [ | exact (IH _ H) ].
    intros e' He'. rewrite E in He'. discriminate He'.
Qed.

Lemma top_loop_no_table gh flag fs repos :
  Forall (fun ev => is_table ev = false)
    (trace_of (for_in fs (top_fork gh (flag_value flag) (fields_of flag)) repos)).
Proof.
  apply for_in_trace_Forall. intros f s _. rewrite top_fork_run.
  destruct (secondary gh flag f) as [ [ n | e ] | ]; [ | destruct (is_NotFoundError e) | ];
    repeat constructor.
Qed.

(** [top], spelled out: the loop, then the table if nothing escaped. *)
Lemma top_run human repo_ctx flag rows s0 :
  let loop := for_in (yielded (RepoCtx.forks repo_ctx))
                (top_fork (RepoCtx.gh repo_ctx) (flag_value flag) (fields_of flag)) [] in
  top human repo_ctx (flag_value flag) rows s0 =
  match outcome_of loop, failure (RepoCtx.forks repo_ctx) with
  | Raise e, _ | Ok _, Some e => (trace_of loop, state_of loop, Raise e)
  | Ok _, None =>
      match sorted_reverse (state_of loop) (attrgetter (flag_value flag)) with
      | Raise e => (trace_of loop, state_of loop, Raise e)
      | Ok sorted_forks =>
          match humanize_dates human 0 (slice_to sorted_forks rows) with
          | Raise e => (trace_of loop, state_of loop, Raise e)
          | Ok humanize_dates_forks =>
              (trace_of loop
                 ++ [EchoTable humanize_dates_forks (fixed_headers ++ extra_header flag)],
               state_of loop, Ok tt)
          end
      end
  end.
Proof.
  intros loop. unfold top.
  rewrite put_bind, lift_bind, top_columns_flag. cbn [fst snd].
  rewrite bind_run, for_each_run. fold loop.
  destruct loop as [[t repos] [[] | e]]; cbn [outcome_of trace_of state_of fst snd];
    [ | reflexivity ].
  destruct (failure (RepoCtx.forks repo_ctx)) as [ e | ]; [ reflexivity | ].
  rewrite get_bind, lift_bind.
  destruct (sorted_reverse repos (attrgetter (flag_value flag))) as [ sorted_forks | e ];
    [ | cbn; now rewrite app_nil_r ].
  rewrite lift_bind.
  destruct (humanize_dates human 0 (slice_to sorted_forks rows)) as [ hs | e ];
    [ | cbn; now rewrite app_nil_r ].
  reflexivity.
Qed.

(** ** The order on keys and the sort *)

Lemma ascii_compare_refl a : Ascii.compare a a = Eq.
Proof. unfold Ascii.compare. apply N.compare_refl. Qed.

Lemma string_compare_refl s : String.compare s s = Eq.
Proof.
  induction s as [ | a s IH ]; [ reflexivity | ].
  cbn. now rewrite ascii_compare_refl.
Qed.

Lemma string_compare_not_lt_trans x :
  forall y z,
    String.compare x y <> Lt -> String.compare y z <> Lt -> String.compare x z <> Lt.
Proof.
  induction x as [ | a x IH ]; intros [ | b y ] [ | c z ]; cbn; try congruence.
  specialize (IH y z). unfold Ascii.compare.
  destruct (N.compare_spec (N_of_ascii a) (N_of_ascii b)) as [ Eab | Lab | Gab ];
    destruct (N.compare_spec (N_of_ascii b) (N_of_ascii c)) as [ Ebc | Lbc | Gbc ];
    destruct (N.compare_spec (N_of_ascii a) (N_of_ascii c)) as [ Eac | Lac | Gac ];
    try congruence; try lia; auto.
Qed.

Lemma py_lt_irrefl a : py_lt a a = false.
Proof.
  destruct a as [ x | x ]; cbn.
  - apply Z.ltb_irrefl.
  - unfold String.ltb. now rewrite string_compare_refl.
Qed.

Lemma py_lt_asym a b : py_lt a b = true -> py_lt b a = false.
Proof.
  destruct a as [ x | x ], b as [ y | y ]; cbn; try congruence.
  - rewrite Z.ltb_lt, Z.ltb_ge. lia.
  - unfold String.ltb. rewrite (String.compare_antisym y x).
    destruct (String.compare x y); cbn; congruence.
Qed.

Lemma py_not_lt_trans a b c :
  py_lt a b = false -> py_lt b c = false -> py_lt a c = false.
Proof.
  destruct a as [ x | x ], b as [ y | y ], c as [ z | z ]; cbn; try congruence.
  - rewrite !Z.ltb_ge. lia.
  - unfold String.ltb. intros H1 H2.
    assert (String.compare x y <> Lt) as N1 by (destruct (String.compare x y); congruence).
    assert (String.compare y z <> Lt) as N2 by (destruct (String.compare y z); congruence).
    pose proof (string_compare_not_lt_trans x y z N1 N2) as N3.
    destruct (String.compare x z); congruence.
Qed.

Lemma py_eqb_eq a b : py_eqb a b = true <-> a = b.
Proof.
  destruct a as [ x | x ], b as [ y | y ]; cbn; split; try congruence.
  - intros H. apply Z.eqb_eq in H. now subst.
  - intros H. injection H as ->. apply Z.eqb_refl.
  - intros H. apply String.eqb_eq in H. now subst.
  - intros H. injection H as ->. apply String.eqb_refl.
Qed.

Section Sort.
Context {A : Type}.

Lemma insert_desc_Forall (P : pyval * A -> Prop) x l :
  P x -> Forall P l -> Forall P (insert_desc x l).
Proof.
  intros Hx Hl. induction Hl as [ | y l Hy Hl IH ]; cbn.
  - now constructor.
  - destruct (py_lt (fst x) (fst y)); repeat constructor; assumption.
Qed.

Lemma insert_desc_sorted (x : pyval * A) (l : list (pyval * A)) :
  StronglySorted key_desc l -> StronglySorted key_desc (insert_desc x l).
Proof.
  induction 1 as [ | y l Hs IH Hy ]; cbn.
  - repeat constructor.
  - destruct (py_lt (fst x) (fst y)) eqn:E.
    + constructor; [ exact IH | ].
      apply insert_desc_Forall; [ | exact Hy ].
      now apply py_lt_asym.
    + constructor; [ now constructor | ].
      constructor; [ exact E | ].
      eapply Forall_impl; [ | exact Hy ].
      intros z Hz. unfold key_desc in *. eapply py_not_lt_trans; eassumption.
Qed.

Lemma sort_desc_sorted (l : list (pyval * A)) : StronglySorted key_desc (sort_desc l).
Proof.
  induction l as [ | x l IH ]; cbn; [ constructor | now apply insert_desc_sorted ].
Qed.

Lemma insert_desc_length x (l : list (pyval * A)) :
  List.length (insert_desc x l) = S (List.length l).
Proof.
  induction l as [ | y l IH ]; cbn; [ reflexivity | ].
  destruct (py_lt (fst x) (fst y)); cbn; now rewrite ?IH.
Qed.

Lemma sort_desc_length (l : list (pyval * A)) :
  List.length (sort_desc l) = List.length l.
Proof.
  induction l as [ | x l IH ]; cbn; [ reflexivity | ].
  now rewrite insert_desc_length, IH.
Qed.

Lemma insert_desc_In x (l : list (pyval * A)) y :
  In y (insert_desc x l) <-> y = x \/ In y l.
Proof.
  induction l as [ | z l IH ]; cbn.
  - intuition congruence.
  - destruct (py_lt (fst x) (fst z)); cbn; rewrite ?IH; intuition congruence.
Qed.

Lemma sort_desc_In (l : list (pyval * A)) y : In y (sort_desc l) <-> In y l.
Proof.
  induction l as [ | x l IH ]; cbn; [ reflexivity | ].
  rewrite insert_desc_In, IH. intuition congruence.
Qed.

Lemma insert_desc_perm x (l : list (pyval * A)) :
  Permutation (insert_desc x l) (x :: l).
Proof.
  induction l as [ | y l IH ]; cbn; [ reflexivity | ].
  destruct (py_lt (fst x) (fst y)); [ | reflexivity ].
  rewrite IH. apply perm_swap.
Qed.

Lemma sort_desc_perm (l : list (pyval * A)) : Permutation (sort_desc l) l.
Proof.
  induction l as [ | x l IH ]; cbn; [ reflexivity | ].
  rewrite insert_desc_perm. now constructor.
Qed.

(** Stability: among the rows of one key, the order is the order of
    arrival. *)
Lemma insert_desc_stable v x (l : list (pyval * A)) :
  filter (fun y => py_eqb (fst y) v) (insert_desc x l)
  = filter (fun y => py_eqb (fst y) v) (x :: l).
Proof.
  induction l as [ | y l IH ]; [ reflexivity | ].
  cbn [insert_desc]. destruct (py_lt (fst x) (fst y)) eqn:E; [ | reflexivity ].
  cbn [filter] in *. rewrite IH.
  destruct (py_eqb (fst y) v) eqn:Ey, (py_eqb (fst x) v) eqn:Ex; try reflexivity.
  apply py_eqb_eq in Ey, Ex. rewrite Ey, Ex, py_lt_irrefl in E. discriminate E.
Qed.

Lemma sort_desc_stable v (l : list (pyval * A)) :
  filter (fun y => py_eqb (fst y) v) (sort_desc l)
  = filter (fun y => py_eqb (fst y) v) l.
Proof.
  induction l as [ | x l IH ]; [ reflexivity | ].
  cbn [sort_desc]. rewrite insert_desc_stable. cbn [filter]. now rewrite IH.
Qed.
End Sort.

Lemma decorate_inv {A} (key : A -> outcome pyval) (l : list A) :
  forall d, decorate key l = Ok d ->
            map snd d = l /\ Forall (fun kr => key (snd kr) = Ok (fst kr)) d.
Proof.
  induction l as [ | a l IH ]; cbn; intros d H.
  - injection H as <-. split; constructor.
  - destruct (key a) as [ k | e ] eqn:Ek; [ | discriminate H ].
    destruct (decorate key l) as [ d' | e ]; [ | discriminate H ].
    injection H as <-. destruct (IH d' eq_refl) as [Hm Hf].
    split; [ cbn; now rewrite Hm | now constructor ].
Qed.

Lemma decorate_ok {A} (key : A -> outcome pyval) (l : list A) :
  Forall (fun a => exists v, key a = Ok v) l -> exists d, decorate key l = Ok d.
Proof.
  induction 1 as [ | a l [v Hv] _ [d Hd] ]; cbn.
  - now exists [].
  - rewrite Hv, Hd. now eexists.
Qed.

Lemma attrgetter_Ok name r v : attrgetter name r = Ok v <-> getattr r name = Some v.
Proof.
  unfold attrgetter. destruct (getattr r name); split; congruence.
Qed.

Lemma keyed_sorted name (d : list (pyval * Repo.t)) :
  Forall (fun kr => attrgetter name (snd kr) = Ok (fst kr)) d ->
  StronglySorted key_desc d ->
  StronglySorted (ranks_before name) (map snd d).
Proof.
  intros Hk Hs. induction Hs as [ | x d Hs IH Hx ]; cbn; [ constructor | ].
  apply Forall_cons_iff in Hk. destruct Hk as [Hkx Hk].
  constructor; [ now apply IH | ].
  apply Forall_map. rewrite Forall_forall in *. intros y Hy.
  exists (fst x), (fst y). repeat split.
  - now apply attrgetter_Ok.
  - apply attrgetter_Ok. now apply Hk.
  - now apply Hx.
Qed.

Lemma keyed_filter name v (d : list (pyval * Repo.t)) :
  Forall (fun kr => attrgetter name (snd kr) = Ok (fst kr)) d ->
  filter (has_value name v) (map snd d)
  = map snd (filter (fun kr => py_eqb (fst kr) v) d).
Proof.
  intros Hk. rewrite filter_map_swap. f_equal.
  apply filter_ext_in. intros kr Hin. rewrite Forall_forall in Hk.
  unfold has_value. apply Hk, attrgetter_Ok in Hin. now rewrite Hin.
Qed.

(** What [sorted(repos, key=attrgetter(name), reverse=True)] returns: the
    same rows, larger values of the field first, rows of equal value in the
    order they had. *)
Lemma sorted_reverse_spec name (l sorted : list Repo.t) :
  sorted_reverse l (attrgetter name) = Ok sorted ->
  StronglySorted (ranks_before name) sorted /\
  List.length sorted = List.length l /\
  (forall v, filter (has_value name v) sorted = filter (has_value name v) l) /\
  (forall r, In r sorted <-> In r l).
Proof.
  unfold sorted_reverse. intros H.
  destruct (decorate (attrgetter name) l) as [ d | e ] eqn:Ed; [ | discriminate H ].
  injection H as <-. destruct (decorate_inv _ _ _ Ed) as [Hm Hk].
  assert (Forall (fun kr => attrgetter name (snd kr) = Ok (fst kr)) (sort_desc d)) as Hk'.
  { rewrite Forall_forall in *. intros kr Hin. now apply Hk, sort_desc_In. }
  repeat split.
  - apply keyed_sorted; [ exact Hk' | apply sort_desc_sorted ].
  - now rewrite length_map, sort_desc_length, <- Hm, length_map.
  - intros v. rewrite (keyed_filter _ _ _ Hk'), sort_desc_stable,
      <- (keyed_filter _ _ _ Hk), Hm. reflexivity.
  - rewrite <- Hm, !in_map_iff. intros (kr & <- & Hin). exists kr.
    split; [ reflexivity | now apply sort_desc_In ].
  - rewrite <- Hm, !in_map_iff. intros (kr & <- & Hin). exists kr.
    split; [ reflexivity | now apply sort_desc_In ].
Qed.

Lemma sorted_reverse_perm name (l sorted : list Repo.t) :
  sorted_reverse l (attrgetter name) = Ok sorted -> Permutation sorted l.
Proof.
  unfold sorted_reverse. intros H.
  destruct (decorate (attrgetter name) l) as [ d | e ] eqn:Ed; [ | discriminate H ].
  injection H as <-. destruct (decorate_inv _ _ _ Ed) as [Hm _].
  rewrite <- Hm. apply Permutation_map, sort_desc_perm.
Qed.

Lemma sorted_reverse_ok name (l : list Repo.t) :
  Forall (fun r => exists v, getattr r name = Some v) l ->
  exists sorted, sorted_reverse l (attrgetter name) = Ok sorted.
Proof.
  intros H. unfold sorted_reverse.
  destruct (decorate_ok (attrgetter name) l) as [d ->]; [ | now eexists ].
  eapply Forall_impl; [ | exact H ]. intros r [v Hv]. exists v. now apply attrgetter_Ok.
Qed.

(** ** Slices *)

Lemma slice_to_firstn {A} (l : list A) (stop : Z) :
  exists n, slice_to l stop = firstn n l.
Proof. unfold slice_to. now eexists. Qed.

Lemma slice_to_length {A} (l : list A) (stop : Z) :
  (0 <= stop)%Z -> (Z.of_nat (List.length (slice_to l stop)) <= stop)%Z.
Proof.
  intros H. unfold slice_to.
  destruct (stop <? 0)%Z eqn:E; [ apply Z.ltb_lt in E; lia | ].
  pose proof (firstn_le_length (Z.to_nat stop) l). lia.
Qed.

Lemma StronglySorted_firstn {A} (R : A -> A -> Prop) n :
  forall l, StronglySorted R l -> StronglySorted R (firstn n l).
Proof.
  induction n as [ | n IH ]; intros l Hs; [ constructor | ].
  destruct Hs as [ | a l Hs Ha ]; cbn; [ constructor | ].
  constructor; [ now apply IH | ].
  rewrite Forall_forall in *. intros x Hx. apply Ha.
  rewrite <- (firstn_skipn n l). apply in_or_app. now left.
Qed.

Lemma filter_firstn_prefix {A} (P : A -> bool) n (l : list A) :
  filter P l = filter P (firstn n l) ++ filter P (skipn n l).
Proof. now rewrite <- filter_app, firstn_skipn. Qed.

(** ** Rows: fields, [_replace], the dates *)

Lemma lookup_replace fields kw name :
  forall values,
    lookup_field fields (replace_values fields values kw) name
    = option_map (fun v => match assoc kw name with Some v' => v' | None => v end)
                 (lookup_field fields values name).
Proof.
  induction fields as [ | f fields IH ]; intros [ | v values ]; cbn; try reflexivity.
  destruct (String.eqb f name) eqn:E; [ | apply IH ].
  apply String.eqb_eq in E. subst f. reflexivity.
Qed.

Lemma replace_values_length fields kw :
  forall values, List.length (replace_values fields values kw) = List.length values.
Proof.
  induction fields as [ | f fields IH ]; intros [ | v values ]; cbn; try reflexivity.
  now rewrite IH.
Qed.

Lemma humanize_fork_spec human k r h :
  humanize_fork human k r = Ok h ->
  humanized human r h /\ List.length (Repo.values h) = List.length (Repo.values r).
Proof.
  unfold humanize_fork, humanize_date. intros H.
  destruct (getattr r "updated_at") as [ [ ? | u ] | ] eqn:Eu; try discriminate H.
  destruct (getattr r "pushed_at") as [ [ ? | p ] | ] eqn:Ep; try discriminate H.
  injection H as <-. split; [ | apply replace_values_length ].
  unfold humanized, getattr, _replace in *. cbn [Repo.fields Repo.values].
  repeat split.
  - intros name N1 N2. rewrite lookup_replace. cbn [assoc].
    destruct (String.eqb "updated_at" name) eqn:E1;
      [ apply String.eqb_eq in E1; congruence | ].
    destruct (String.eqb "pushed_at" name) eqn:E2;
      [ apply String.eqb_eq in E2; congruence | ].
    now destruct (lookup_field (Repo.fields r) (Repo.values r) name).
  - exists (2 * k), u. split; [ exact Eu | ].
    rewrite lookup_replace, Eu. reflexivity.
  - exists (2 * k + 1), p. split; [ exact Ep | ].
    rewrite lookup_replace, Ep. reflexivity.
Qed.

Lemma humanize_dates_spec human l :
  forall k table,
    humanize_dates human k l = Ok table ->
    Forall2 (fun r h => humanized human r h /\
                        List.length (Repo.values h) = List.length (Repo.values r))
            l table.
Proof.
  induction l as [ | r l IH ]; cbn; intros k table H.
  - injection H as <-. constructor.
  - destruct (humanize_fork human k r) as [ h | e ] eqn:Eh; [ | discriminate H ].
    destruct (humanize_dates human (S k) l) as [ hs | e ] eqn:Ehs; [ | discriminate H ].
    injection H as <-. constructor; [ now apply (humanize_fork_spec human k) | ].
    now apply (IH (S k)).
Qed.

Lemma humanize_dates_ok human l :
  Forall (fun r => (exists u, getattr r "updated_at" = Some (PStr u)) /\
                   (exists p, getattr r "pushed_at" = Some (PStr p))) l ->
  forall k, exists table, humanize_dates human k l = Ok table.
Proof.
  induction 1 as [ | r l [[u Hu] [p Hp]] _ IH ]; intros k; cbn.
  - now eexists.
  - unfold humanize_fork, humanize_date. rewrite Hu, Hp.
    destruct (IH (S k)) as [hs ->]. now eexists.
Qed.

(** The rows [top] keeps: the fields of the key, one value per field, the
    key among them, the two dates as the API gave them. *)
Lemma kept_row_facts gh flag fork r :
  kept_row gh flag fork = Some r ->
  Repo.fields r = fields_of flag /\
  List.length (Repo.values r) = List.length (fields_of flag) /\
  (exists v, getattr r (flag_value flag) = Some v) /\
  getattr r "updated_at" = Some (PStr (Fork.updated_at fork)) /\
  getattr r "pushed_at" = Some (PStr (Fork.pushed_at fork)).
Proof.
  unfold kept_row. intros H.
  destruct flag; cbn [secondary] in H;
    repeat match type of H with
           | context [match ?x with _ => _ end] => destruct x
           end;
    try discriminate H; injection H as <-;
    (repeat split; try reflexivity; eexists; reflexivity).
Qed.

Lemma candidates_In gh flag fs r :
  In r (candidates gh flag fs) <-> exists f, In f fs /\ kept_row gh flag f = Some r.
Proof.
  unfold candidates. rewrite in_flat_map. split; intros (f & Hf & H); exists f.
  - split; [ exact Hf | ]. destruct (kept_row gh flag f); cbn in H; [ | tauto ].
    destruct H as [ -> | [] ]. reflexivity.
  - split; [ exact Hf | ]. rewrite H. now left.
Qed.

(** ** The table of [top] *)

(** A table in the trace of [top] is the one of its last line: the forks
    were all passed, their rows sorted, cut and put in relative dates. *)
Lemma top_table human repo_ctx flag rows s0 table headers :
  In (EchoTable table headers)
     (trace_of (top human repo_ctx (flag_value flag) rows s0)) ->
  headers = fixed_headers ++ extra_header flag /\
  exists sorted_forks,
    sorted_reverse (candidates (RepoCtx.gh repo_ctx) flag (yielded (RepoCtx.forks repo_ctx)))
                   (attrgetter (flag_value flag)) = Ok sorted_forks /\
    humanize_dates human 0 (slice_to sorted_forks rows) = Ok table.
Proof.
  rewrite top_run.
  pose proof (top_loop_no_table (RepoCtx.gh repo_ctx) flag
                (yielded (RepoCtx.forks repo_ctx)) []) as Hno.
  pose proof (top_loop_ok (RepoCtx.gh repo_ctx) flag
                (yielded (RepoCtx.forks repo_ctx)) []) as Hok.
  pose proof (fun H => proj1 (top_loop_passes (RepoCtx.gh repo_ctx) flag
                (yielded (RepoCtx.forks repo_ctx)) H [])) as Hst.
  set (loop := for_in (yielded (RepoCtx.forks repo_ctx))
                 (top_fork (RepoCtx.gh repo_ctx) (flag_value flag) (fields_of flag)) [])
    in *.
  rewrite Forall_forall in Hno.
  assert (forall ev, In ev (trace_of loop) -> ev <> EchoTable table headers) as Hne.
  { intros ev Hin ->. specialize (Hno _ Hin). discriminate Hno. }
  destruct (outcome_of loop) as [ [] | e ];
    [ | intros Hin; now elim (Hne _ Hin) ].
  destruct (failure (RepoCtx.forks repo_ctx)) as [ e | ];
    [ intros Hin; now elim (Hne _ Hin) | ].
  rewrite (Hst (Hok eq_refl)), app_nil_l.
  destruct (sorted_reverse _ _) as [ sorted_forks | e ] eqn:Es;
    [ | intros Hin; now elim (Hne _ Hin) ].
  destruct (humanize_dates human 0 (slice_to sorted_forks rows)) as [ hs | e ] eqn:Eh;
    [ | intros Hin; now elim (Hne _ Hin) ].
  cbn [trace_of fst]. intros Hin. apply in_app_or in Hin.
  destruct Hin as [ Hin | [ Heq | [] ] ]; [ now elim (Hne _ Hin) | ].
  injection Heq as <- <-. split; [ reflexivity | ].
  exists sorted_forks. split; [ reflexivity | exact Eh ].
Qed.

(** [top] does write its table when every fork is passed and the listing
    of forks ends. *)
Lemma top_renders human repo_ctx flag rows s0 :
  Forall (top_passes (RepoCtx.gh repo_ctx) flag) (yielded (RepoCtx.forks repo_ctx)) ->
  failure (RepoCtx.forks repo_ctx) = None ->
  exists t table,
    top human repo_ctx (flag_value flag) rows s0 =
    (t ++ [EchoTable table (fixed_headers ++ extra_header flag)],
     candidates (RepoCtx.gh repo_ctx) flag (yielded (RepoCtx.forks repo_ctx)),
     Ok tt).
Proof.
  intros Hp Hf. rewrite top_run, Hf.
  destruct (top_loop_passes _ _ _ Hp []) as [Hst Hok].
  rewrite Hok, Hst, app_nil_l.
  set (cands := candidates (RepoCtx.gh repo_ctx) flag (yielded (RepoCtx.forks repo_ctx))).
  assert (forall r, In r cands ->
            (exists v, getattr r (flag_value flag) = Some v) /\
            (exists u, getattr r "updated_at" = Some (PStr u)) /\
            (exists p, getattr r "pushed_at" = Some (PStr p))) as Hrows.
  { intros r Hr. apply candidates_In in Hr. destruct Hr as (f & _ & Hk).
    destruct (kept_row_facts _ _ _ _ Hk) as (_ & _ & Hv & Hu & Hpu).
    split; [ exact Hv | split; eexists; eassumption ]. }
  destruct (sorted_reverse_ok (flag_value flag) cands) as [sorted_forks Hs].
  { apply Forall_forall. intros r Hr. now apply Hrows. }
  rewrite Hs. destruct (sorted_reverse_spec _ _ _ Hs) as (_ & _ & _ & Hin).
  destruct (humanize_dates_ok human (slice_to sorted_forks rows)) with (k := 0)
    as [table Ht].
  { apply Forall_forall. intros r Hr. apply Hrows, Hin.
    destruct (slice_to_firstn sorted_forks rows) as [n Hn]. rewrite Hn in Hr.
    rewrite <- (firstn_skipn n sorted_forks). apply in_or_app. now left. }
  rewrite Ht. now eexists _, _.
Qed.

Lemma Forall2_StronglySorted {A B} (R : A -> B -> Prop)
    (P : A -> A -> Prop) (Q : B -> B -> Prop) :
  (forall a a' b b', R a a' -> R b b' -> P a b -> Q a' b') ->
  forall l l', Forall2 R l l' -> StronglySorted P l -> StronglySorted Q l'.
Proof.
  intros HPQ l l' H2. induction H2 as [ | a a' l l' Ha H2 IH ]; intros Hs.
  - constructor.
  - apply StronglySorted_inv in Hs. destruct Hs as [Hs Hall].
    constructor; [ now apply IH | ].
    clear IH Hs. induction H2 as [ | b b' l l' Hb H2 IH ]; [ constructor | ].
    apply Forall_cons_iff in Hall. destruct Hall as [Hab Hall].
    constructor; [ now apply (HPQ a a' b b') | now apply IH ].
Qed.

Lemma Forall2_length_eq {A B} (R : A -> B -> Prop) l l' :
  Forall2 R l l' -> List.length l' = List.length l.
Proof. induction 1; cbn; congruence. Qed.

(** What every table of [top] is made of. *)
Lemma top_table_ranked human repo_ctx flag rows s0 table headers :
  In (EchoTable table headers)
     (trace_of (top human repo_ctx (flag_value flag) rows s0)) ->
  exists sorted_forks,
    sorted_reverse (candidates (RepoCtx.gh repo_ctx) flag (yielded (RepoCtx.forks repo_ctx)))
                   (attrgetter (flag_value flag)) = Ok sorted_forks /\
    Forall2 (fun r h => humanized human r h /\
                        List.length (Repo.values h) = List.length (Repo.values r))
            (slice_to sorted_forks rows) table.
Proof.
  intros Hin. destruct (top_table _ _ _ _ _ _ _ Hin) as (_ & sorted_forks & Hs & Hh).
  exists sorted_forks. split; [ exact Hs | ].
  now apply (humanize_dates_spec human _ 0).
Qed.

Lemma Forall2_weaken {A B} (R R' : A -> B -> Prop) l l' :
  (forall a b, R a b -> R' a b) -> Forall2 R l l' -> Forall2 R' l l'.
Proof. intros H. induction 1; constructor; auto. Qed.

(** C2, as the spec words it, fails for a negative row limit: [--rows -1]
    cuts the last row off the ranking, and the table of the three sample
    forks has two rows, which is more than [-1]. *)
Lemma top_negative_rows_keeps_rows :
  exists table headers,
    trace_of (top Sample.human Sample.repo_ctx (flag_value Star) (-1) []) =
      [EchoTable table headers] /\
    List.length table = 2 /\
    ~ (Z.of_nat (List.length table) <= -1)%Z.
Proof.
  eexists. eexists. split; [ vm_compute; reflexivity | ].
  split; [ reflexivity | cbn; lia ].
Qed.

(** C2 (amended): for a row limit that is not negative, every table [top]
    writes has at most [rows] rows; its rows are, with their dates in
    relative form, the first rows of [sorted_forks], which holds the rows of
    the kept forks sorted downwards on the fetched values of the chosen field
    (so the table itself is sorted on that field under every key that is not
    a date); the limit is 10 when the flag is not given; and [top] does write
    the table when every fork is passed and the listing of forks ends. *)
Theorem top_table_sorted_and_bounded
    (human : nat -> string -> string) (repo_ctx : RepoCtx.t) (flag : sort_flag)
    (rows : Z) (s0 : list Repo.t) :
  (0 <= rows)%Z ->
  (forall table headers,
     In (EchoTable table headers)
        (trace_of (top human repo_ctx (flag_value flag) rows s0)) ->
     (Z.of_nat (List.length table) <= rows)%Z /\
     (exists sorted_forks,
        sorted_reverse
          (candidates (RepoCtx.gh repo_ctx) flag (yielded (RepoCtx.forks repo_ctx)))
          (attrgetter (flag_value flag)) = Ok sorted_forks /\
        Permutation sorted_forks
          (candidates (RepoCtx.gh repo_ctx) flag (yielded (RepoCtx.forks repo_ctx))) /\
        StronglySorted (ranks_before (flag_value flag)) sorted_forks /\
        Forall2 (humanized human) (slice_to sorted_forks rows) table) /\
     (flag <> Updated_at -> flag <> Pushed_at ->
      StronglySorted (ranks_before (flag_value flag)) table)) /\
  default_rows = 10%Z /\
  (Forall (top_passes (RepoCtx.gh repo_ctx) flag) (yielded (RepoCtx.forks repo_ctx)) ->
   failure (RepoCtx.forks repo_ctx) = None ->
   exists t table headers,
     top human repo_ctx (flag_value flag) rows s0 =
     (t ++ [EchoTable table headers],
      candidates (RepoCtx.gh repo_ctx) flag (yielded (RepoCtx.forks repo_ctx)), Ok tt)).
Proof.
  intros Hrows. split; [ | split; [ reflexivity | ] ].
  - intros table headers Hin.
    destruct (top_table_ranked _ _ _ _ _ _ _ Hin) as (sorted_forks & Hs & H2).
    destruct (sorted_reverse_spec _ _ _ Hs) as (Hsorted & _).
    assert (StronglySorted (ranks_before (flag_value flag)) (slice_to sorted_forks rows))
      as Hranked.
    { destruct (slice_to_firstn sorted_forks rows) as [n ->].
      now apply StronglySorted_firstn. }
    split; [ | split ].
    + rewrite (Forall2_length_eq _ _ _ H2). now apply slice_to_length.
    + exists sorted_forks. split; [ exact Hs | ].
      split; [ exact (sorted_reverse_perm _ _ _ Hs) | ].
      split; [ exact Hsorted | ].
      eapply Forall2_weaken; [ | exact H2 ]. now intros r h [H _].
    + intros Nu Np. eapply Forall2_StronglySorted; [ | exact H2 | exact Hranked ].
      intros a a' b b' [(_ & Ha & _) _] [(_ & Hb & _) _] (va & vb & Hva & Hvb & Hlt).
      assert (flag_value flag <> "updated_at") as N1 by (destruct flag; cbn; congruence).
      assert (flag_value flag <> "pushed_at") as N2 by (destruct flag; cbn; congruence).
      exists va, vb. rewrite (Ha _ N1 N2), (Hb _ N1 N2). now repeat split.
  - intros Hp Hf. destruct (top_renders human repo_ctx flag rows s0 Hp Hf) as (t & table & H).
    now exists t, table, (fixed_headers ++ extra_header flag).
Qed.

Lemma top_table_sorted_and_bounded_witness :
  ((Z.of_nat (List.length Sample.star_table) <= 10)%Z /\
   (exists sorted_forks,
      sorted_reverse
        (candidates (RepoCtx.gh Sample.repo_ctx) Star
                    (yielded (RepoCtx.forks Sample.repo_ctx)))
        (attrgetter (flag_value Star)) = Ok sorted_forks /\
      Permutation sorted_forks
        (candidates (RepoCtx.gh Sample.repo_ctx) Star
                    (yielded (RepoCtx.forks Sample.repo_ctx))) /\
      StronglySorted (ranks_before (flag_value Star)) sorted_forks /\
      Forall2 (humanized Sample.human) (slice_to sorted_forks 10) Sample.star_table) /\
   StronglySorted (ranks_before (flag_value Star)) Sample.star_table) /\
  default_rows = 10%Z /\
  exists t table headers,
    top Sample.human Sample.repo_ctx (flag_value Star) 10 [] =
    (t ++ [EchoTable table headers],
     candidates (RepoCtx.gh Sample.repo_ctx) Star
                (yielded (RepoCtx.forks Sample.repo_ctx)), Ok tt).
Proof.
  assert (0 <= 10)%Z as Hrows by lia.
  destruct (top_table_sorted_and_bounded Sample.human Sample.repo_ctx Star 10 [] Hrows)
    as (Htable & Hdefault & Hrenders).
  split; [ | split; [ exact Hdefault | ] ].
  - assert (In (EchoTable Sample.star_table Sample.star_headers)
               (trace_of (top Sample.human Sample.repo_ctx (flag_value Star) 10 [])))
      as Hin by find_in_trace.
    destruct (Htable _ _ Hin) as (Hlen & Hranked & Hsorted).
    split; [ exact Hlen | split; [ exact Hranked | ] ].
    apply Hsorted; discriminate.
  - apply Hrenders; [ | reflexivity ].
    apply Forall_forall. intros f _ e He. discriminate He.
Defined.


(** C7: every table [top] writes has the six fixed columns, and after them
    one column for the sort key exactly when the key is not a fixed column
    (watchers, commits, branches), headed by the key capitalized; every row
    has these fields and one value per column. *)
Theorem top_table_columns
    (human : nat -> string -> string) (repo_ctx : RepoCtx.t) (flag : sort_flag)
    (rows : Z) (s0 : list Repo.t) (table : list Repo.t) (headers : list string) :
  In (EchoTable table headers)
     (trace_of (top human repo_ctx (flag_value flag) rows s0)) ->
  headers = ["URL"; "Stars"; "Forks"; "Open Issues"; "Last update"; "Pushed At"]
              ++ extra_header flag /\
  (In (flag_value flag) fixed_fields -> extra_header flag = []) /\
  (~ In (flag_value flag) fixed_fields ->
   extra_header flag = [capitalize (flag_value flag)] /\
   In flag [Watchers_count; Commits; Branches]) /\
  Forall (fun h => Repo.fields h = fixed_fields ++
                     (if is_slow flag then [flag_value flag] else []) /\
                   List.length (Repo.values h) = List.length headers) table.
Proof.
  intros Hin. destruct (top_table _ _ _ _ _ _ _ Hin) as (Hh & _).
  destruct (top_table_ranked _ _ _ _ _ _ _ Hin) as (sorted_forks & Hs & H2).
  split; [ exact Hh | ]. split; [ | split ].
  - destruct flag; cbn; intros H; try reflexivity;
      repeat (destruct H as [ H | H ]; try discriminate H); contradiction.
  - destruct flag; cbn; intros H; try (exfalso; apply H; tauto);
      (split; [ reflexivity | tauto ]).
  - destruct (sorted_reverse_spec _ _ _ Hs) as (_ & _ & _ & Hsin).
    assert (forall r, In r (slice_to sorted_forks rows) ->
              Repo.fields r = fields_of flag /\
              List.length (Repo.values r) = List.length (fields_of flag)) as Hr.
    { intros r Hr. destruct (slice_to_firstn sorted_forks rows) as [n Hn].
      rewrite Hn in Hr.
      assert (In r sorted_forks) as Hr'
        by (rewrite <- (firstn_skipn n sorted_forks); apply in_or_app; now left).
      apply Hsin, candidates_In in Hr'. destruct Hr' as (f & _ & Hk).
      destruct (kept_row_facts _ _ _ _ Hk) as (Hf & Hl & _). now split. }
    clear Hs Hsin Hin. induction H2 as [ | r h l l' [(Hf & _) Hlen] H2 IH ];
      constructor.
    + destruct (Hr r (or_introl eq_refl)) as [Hfr Hlr].
      split; [ now rewrite Hf, Hfr | ].
      rewrite Hlen, Hlr, Hh. destruct flag; reflexivity.
    + apply IH. intros r' Hr'. apply Hr. now right.
Qed.

Lemma top_table_columns_witness :
  Sample.watchers_headers
    = ["URL"; "Stars"; "Forks"; "Open Issues"; "Last update"; "Pushed At"]
        ++ extra_header Watchers_count /\
  (In (flag_value Watchers_count) fixed_fields -> extra_header Watchers_count = []) /\
  (~ In (flag_value Watchers_count) fixed_fields ->
   extra_header Watchers_count = [capitalize (flag_value Watchers_count)] /\
   In Watchers_count [Watchers_count; Commits; Branches]) /\
  Forall (fun h => Repo.fields h = fixed_fields ++
                     (if is_slow Watchers_count then [flag_value Watchers_count] else []) /\
                   List.length (Repo.values h) = List.length Sample.watchers_headers)
         Sample.watchers_table.
Proof.
  apply (top_table_columns Sample.human Sample.repo_ctx Watchers_count 10 []
           Sample.watchers_table Sample.watchers_headers).
  find_in_trace.
Defined.

(** C8: the rows of every table [top] writes are, in order, the first
    [rows] rows of the sorted [repos] with the two dates replaced by their
    relative forms; a row keeps its field names, and every field other than
    [updated_at] and [pushed_at] reads as it did when the row was fetched. *)
Theorem top_humanize_changes_only_dates
    (human : nat -> string -> string) (repo_ctx : RepoCtx.t) (flag : sort_flag)
    (rows : Z) (s0 : list Repo.t) (table : list Repo.t) (headers : list string) :
  In (EchoTable table headers)
     (trace_of (top human repo_ctx (flag_value flag) rows s0)) ->
  exists sorted_forks,
    sorted_reverse (candidates (RepoCtx.gh repo_ctx) flag (yielded (RepoCtx.forks repo_ctx)))
                   (attrgetter (flag_value flag)) = Ok sorted_forks /\
    Forall (fun r => exists fork,
                In fork (yielded (RepoCtx.forks repo_ctx)) /\
                kept_row (RepoCtx.gh repo_ctx) flag fork = Some r)
           (slice_to sorted_forks rows) /\
    Forall2 (fun r h =>
               Repo.fields h = Repo.fields r /\
               List.length (Repo.values h) = List.length (Repo.values r) /\
               (forall name, name <> "updated_at" -> name <> "pushed_at" ->
                             getattr h name = getattr r name) /\
               (exists k ts, getattr r "updated_at" = Some (PStr ts) /\
                             getattr h "updated_at" = Some (PStr (human k ts))) /\
               (exists k ts, getattr r "pushed_at" = Some (PStr ts) /\
                             getattr h "pushed_at" = Some (PStr (human k ts))))
            (slice_to sorted_forks rows) table.
Proof.
  intros Hin. destruct (top_table_ranked _ _ _ _ _ _ _ Hin) as (sorted_forks & Hs & H2).
  exists sorted_forks. split; [ exact Hs | ]. split.
  - destruct (sorted_reverse_spec _ _ _ Hs) as (_ & _ & _ & Hsin).
    apply Forall_forall. intros r Hr.
    destruct (slice_to_firstn sorted_forks rows) as [n Hn]. rewrite Hn in Hr.
    apply candidates_In, Hsin. rewrite <- (firstn_skipn n sorted_forks).
    apply in_or_app. now left.
  - eapply Forall2_weaken; [ | exact H2 ].
    intros r h [(Hf & Hframe & Hu & Hp) Hlen]. now repeat split.
Qed.

Lemma top_humanize_changes_only_dates_witness :
  exists sorted_forks,
    sorted_reverse (candidates (RepoCtx.gh Sample.repo_ctx) Star
                      (yielded (RepoCtx.forks Sample.repo_ctx)))
                   (attrgetter (flag_value Star)) = Ok sorted_forks /\
    Forall (fun r => exists fork,
                In fork (yielded (RepoCtx.forks Sample.repo_ctx)) /\
                kept_row (RepoCtx.gh Sample.repo_ctx) Star fork = Some r)
           (slice_to sorted_forks 10) /\
    Forall2 (fun r h =>
               Repo.fields h = Repo.fields r /\
               List.length (Repo.values h) = List.length (Repo.values r) /\
               (forall name, name <> "updated_at" -> name <> "pushed_at" ->
                             getattr h name = getattr r name) /\
               (exists k ts, getattr r "updated_at" = Some (PStr ts) /\
                             getattr h "updated_at" = Some (PStr (Sample.human k ts))) /\
               (exists k ts, getattr r "pushed_at" = Some (PStr ts) /\
                             getattr h "pushed_at" = Some (PStr (Sample.human k ts))))
            (slice_to sorted_forks 10) Sample.star_table.
Proof.
  apply (top_humanize_changes_only_dates Sample.human Sample.repo_ctx Star 10 []
           Sample.star_table Sample.star_headers).
  find_in_trace.
Defined.

Lemma candidates_fast gh flag fs :
  is_slow flag = false ->
  candidates gh flag fs = map (fun f => Repo.Make fixed_fields (def_prop f)) fs.
Proof.
  intros Hf. induction fs as [ | f fs IH ]; [ reflexivity | ].
  unfold candidates in *. cbn [flat_map map]. rewrite IH.
  destruct flag; try discriminate Hf; reflexivity.
Qed.

Lemma top_loop_fast gh flag fs :
  is_slow flag = false ->
  forall repos,
    for_in fs (top_fork gh (flag_value flag) (fields_of flag)) repos
    = ([], repos ++ map (fun f => Repo.Make fixed_fields (def_prop f)) fs, Ok tt).
Proof.
  intros Hf. induction fs as [ | f fs IH ]; intros repos.
  - cbn. now rewrite app_nil_r.
  - cbn [for_in]. rewrite bind_run, top_fork_run.
    assert (secondary gh flag f = None) as -> by (destruct flag; try discriminate Hf; reflexivity).
    rewrite IH. cbn [trace_of state_of outcome_of fst snd app map].
    rewrite <- app_assoc.
    assert (fields_of flag = fixed_fields) as ->
      by (destruct flag; try discriminate Hf; reflexivity).
    reflexivity.
Qed.

(** C9: under a fast key (stars, forks, open issues, last-updated,
    last-pushed) the loop of [top] makes no second request and writes no
    notice, and when it ends [repos] holds one row for every fork the
    listing gave, in the order of the listing; the whole run has no event
    but the table. *)
Theorem top_fast_key_keeps_every_fork
    (human : nat -> string -> string) (repo_ctx : RepoCtx.t) (flag : sort_flag)
    (rows : Z) (s0 : list Repo.t) :
  In flag [Star; Forks; Open_issues; Updated_at; Pushed_at] ->
  for_in (yielded (RepoCtx.forks repo_ctx))
         (top_fork (RepoCtx.gh repo_ctx) (flag_value flag) (fields_of flag)) []
    = ([], map (fun f => Repo.Make fixed_fields (def_prop f))
               (yielded (RepoCtx.forks repo_ctx)), Ok tt) /\
  state_of (top human repo_ctx (flag_value flag) rows s0)
    = map (fun f => Repo.Make fixed_fields (def_prop f))
          (yielded (RepoCtx.forks repo_ctx)) /\
  Forall (fun ev => is_call ev = false)
         (trace_of (top human repo_ctx (flag_value flag) rows s0)) /\
  Forall (fun ev => is_table ev = true)
         (trace_of (top human repo_ctx (flag_value flag) rows s0)).
Proof.
  intros Hflag.
  assert (is_slow flag = false) as Hf.
  { cbn in Hflag. repeat (destruct Hflag as [ <- | Hflag ]; [ reflexivity | ]).
    contradiction. }
  pose proof (top_loop_fast (RepoCtx.gh repo_ctx) flag
                (yielded (RepoCtx.forks repo_ctx)) Hf []) as Hloop.
  rewrite app_nil_l in Hloop. split; [ exact Hloop | ].
  rewrite top_run, Hloop. cbn [trace_of state_of outcome_of fst snd].
  destruct (failure (RepoCtx.forks repo_ctx)); [ repeat split; constructor | ].
  destruct (sorted_reverse _ _); [ | repeat split; constructor ].
  destruct (humanize_dates _ _ _); repeat split; repeat constructor.
Qed.

Lemma top_fast_key_keeps_every_fork_witness :
  for_in (yielded (RepoCtx.forks Sample.repo_ctx))
         (top_fork (RepoCtx.gh Sample.repo_ctx) (flag_value Pushed_at)
                   (fields_of Pushed_at)) []
    = ([], map (fun f => Repo.Make fixed_fields (def_prop f))
               (yielded (RepoCtx.forks Sample.repo_ctx)), Ok tt) /\
  state_of (top Sample.human Sample.repo_ctx (flag_value Pushed_at) 10 [])
    = map (fun f => Repo.Make fixed_fields (def_prop f))
          (yielded (RepoCtx.forks Sample.repo_ctx)) /\
  Forall (fun ev => is_call ev = false)
         (trace_of (top Sample.human Sample.repo_ctx (flag_value Pushed_at) 10 [])) /\
  Forall (fun ev => is_table ev = true)
         (trace_of (top Sample.human Sample.repo_ctx (flag_value Pushed_at) 10 [])).
Proof.
  apply (top_fast_key_keeps_every_fork Sample.human Sample.repo_ctx Pushed_at 10 []).
  cbn. tauto.
Defined.

(** C10: the sort of [top] is stable.  [candidates] lists the rows of the
    kept forks in the order of the fork listing; in every table, the rows
    that share a value of the sort field come, before their dates are put in
    relative form, in the order [candidates] has them: they are the first of
    them. *)
Theorem top_sort_is_stable
    (human : nat -> string -> string) (repo_ctx : RepoCtx.t) (flag : sort_flag)
    (rows : Z) (s0 : list Repo.t) (table : list Repo.t) (headers : list string) :
  In (EchoTable table headers)
     (trace_of (top human repo_ctx (flag_value flag) rows s0)) ->
  exists sorted_forks,
    sorted_reverse (candidates (RepoCtx.gh repo_ctx) flag (yielded (RepoCtx.forks repo_ctx)))
                   (attrgetter (flag_value flag)) = Ok sorted_forks /\
    Forall2 (humanized human) (slice_to sorted_forks rows) table /\
    forall v,
      filter (has_value (flag_value flag) v) sorted_forks
        = filter (has_value (flag_value flag) v)
            (candidates (RepoCtx.gh repo_ctx) flag (yielded (RepoCtx.forks repo_ctx))) /\
      exists rest,
        filter (has_value (flag_value flag) v)
          (candidates (RepoCtx.gh repo_ctx) flag (yielded (RepoCtx.forks repo_ctx)))
        = filter (has_value (flag_value flag) v) (slice_to sorted_forks rows) ++ rest.
Proof.
  intros Hin. destruct (top_table_ranked _ _ _ _ _ _ _ Hin) as (sorted_forks & Hs & H2).
  exists sorted_forks. split; [ exact Hs | ]. split.
  - eapply Forall2_weaken; [ | exact H2 ]. now intros r h [H _].
  - intros v. destruct (sorted_reverse_spec _ _ _ Hs) as (_ & _ & Hstable & _).
    split; [ apply Hstable | ].
    destruct (slice_to_firstn sorted_forks rows) as [n ->].
    exists (filter (has_value (flag_value flag) v) (skipn n sorted_forks)).
    rewrite <- Hstable. apply filter_firstn_prefix.
Qed.

Lemma top_sort_is_stable_witness :
  exists sorted_forks,
    sorted_reverse (candidates (RepoCtx.gh Sample.repo_ctx) Star
                      (yielded (RepoCtx.forks Sample.repo_ctx)))
                   (attrgetter (flag_value Star)) = Ok sorted_forks /\
    Forall2 (humanized Sample.human) (slice_to sorted_forks 10) Sample.star_table /\
    forall v,
      filter (has_value (flag_value Star) v) sorted_forks
        = filter (has_value (flag_value Star) v)
            (candidates (RepoCtx.gh Sample.repo_ctx) Star
                        (yielded (RepoCtx.forks Sample.repo_ctx))) /\
      exists rest,
        filter (has_value (flag_value Star) v)
          (candidates (RepoCtx.gh Sample.repo_ctx) Star
                      (yielded (RepoCtx.forks Sample.repo_ctx)))
        = filter (has_value (flag_value Star) v) (slice_to sorted_forks 10) ++ rest.
Proof.
  apply (top_sort_is_stable Sample.human Sample.repo_ctx Star 10 []
           Sample.star_table Sample.star_headers).
  find_in_trace.
Defined.

(** ** Exceptions: what is skipped, what escapes *)

Lemma for_in_reach {S A} (body : A -> M S unit) (before rest : list A) (s : S) :
  outcome_of (for_in before body s) = Ok tt ->
  for_in (before ++ rest) body s =
  (trace_of (for_in before body s)
     ++ trace_of (for_in rest body (state_of (for_in before body s))),
   state_of (for_in rest body (state_of (for_in before body s))),
   outcome_of (for_in rest body (state_of (for_in before body s)))).
Proof.
  intros Hok. rewrite for_in_app, bind_run.
  destruct (for_in before body s) as [[t s1] o]. cbn in Hok. subst o. reflexivity.
Qed.

Lemma with_extra_bind {S A B} (evs : list event) (m m' : M S A) (k : A -> M S B) (s : S) :
  with_extra_events evs (m s) (m' s) ->
  with_extra_events evs (bind m k s) (bind m' k s).
Proof.
  intros (t1 & t2 & H1 & H2 & Hs & Ho). rewrite !bind_run.
  destruct (m s) as [[t st] o], (m' s) as [[t' st'] o']. cbn in H1, H2, Hs, Ho. subst.
  destruct o' as [ a | e ].
  - exists t1, (t2 ++ trace_of (k a st')). cbn. now rewrite <- !app_assoc.
  - exists t1, t2. now cbn.
Qed.

(** A turn that only writes [evs] can be taken out of a loop that reaches
    it: the run loses [evs] and nothing else. *)
Lemma for_in_skip {S A} (body : A -> M S unit) (evs : list event)
    (before : list A) (a : A) (after : list A) (s : S) :
  (forall s', body a s' = (evs, s', Ok tt)) ->
  outcome_of (for_in before body s) = Ok tt ->
  with_extra_events evs (for_in (before ++ a :: after) body s)
                        (for_in (before ++ after) body s).
Proof.
  intros Ha Hok. rewrite !(for_in_reach _ _ _ _ Hok).
  rewrite (for_in_cons_ok _ _ _ _ _ _ (Ha _)).
  exists (trace_of (for_in before body s)),
         (trace_of (for_in after body (state_of (for_in before body s)))).
  now cbn.
Qed.

Lemma for_each_skip {S A} (body : A -> M S unit) (evs : list event)
    (before : list A) (a : A) (after : list A) (f : option exn) (s : S) :
  (forall s', body a s' = (evs, s', Ok tt)) ->
  outcome_of (for_in before body s) = Ok tt ->
  with_extra_events evs (for_each (Listing (before ++ a :: after) f) body s)
                        (for_each (Listing (before ++ after) f) body s).
Proof.
  intros Ha Hok. unfold for_each. cbn [yielded failure].
  apply with_extra_bind. now apply for_in_skip.
Qed.

Lemma listing_eta {A} (it : listing A) : it = Listing (yielded it) (failure it).
Proof. now destruct it. Qed.

Lemma not_NotFoundError e : e <> NotFoundError -> is_NotFoundError e = false.
Proof. destruct e; cbn; congruence. Qed.

Lemma tables_none t : Forall (fun ev => is_table ev = false) t -> tables t = [].
Proof.
  induction 1 as [ | ev t Hev _ IH ]; [ reflexivity | ].
  destruct ev; cbn in *; try exact IH. discriminate Hev.
Qed.

(** C3 fails on the code, for [fnm].  The handler of lines 74-75 is there,
    but the loop does not live to use it: with the forks before it passed,
    the first fork that has something to report ends the run with
    [AttributeError] (the file of [click.echo] is a string), so the forks
    listed after it, not found or not, are not asked for their commits and
    get no notice, and the fork's own notice is not written either; and on a
    context that holds a string, as the one [cli] builds does, [fnm] ends
    before the loop. *)
Theorem fnm_stops_at_the_first_report
    (repo_ctx : RepoCtx.t) (r : Repository.t) (before : list Fork.t)
    (fork : Fork.t) (after : list Fork.t) (s0 : string) :
  RepoCtx.repository repo_ctx = RepositoryObj r ->
  failure (Repository.commits r) = None ->
  yielded (RepoCtx.forks repo_ctx) = before ++ fork :: after ->
  Forall (fnm_quiet (map Commit.message (yielded (Repository.commits r)))) before ->
  reports (map Commit.message (yielded (Repository.commits r))) fork = true ->
  fnm repo_ctx s0 =
    (Call "commits" (Repository.html_url r)
       :: flat_map fork_turn before ++ [Call "commits" (Fork.html_url fork)],
     EmptyString, Raise AttributeError) /\
  (forall (any_ctx : RepoCtx.t) (name : string) (s : string),
     RepoCtx.repository any_ctx = StrObj name ->
     fnm any_ctx s = ([], s, Raise AttributeError)).
Proof.
  intros Hr Hc Hf Hb Hrep. split.
  - exact (fnm_stops repo_ctx r before fork after s0 Hr Hc Hf Hb Hrep).
  - intros any_ctx name s. apply fnm_on_a_string.
Qed.

Lemma fnm_stops_at_the_first_report_witness :
  fnm Cases.two_ctx EmptyString =
    (Call "commits" (Repository.html_url Sample.upstream)
       :: flat_map fork_turn [] ++ [Call "commits" (Fork.html_url Sample.alice)],
     EmptyString, Raise AttributeError) /\
  (forall (any_ctx : RepoCtx.t) (name : string) (s : string),
     RepoCtx.repository any_ctx = StrObj name ->
     fnm any_ctx s = ([], s, Raise AttributeError)).
Proof.
  apply (fnm_stops_at_the_first_report Cases.two_ctx Sample.upstream
           [] Sample.alice [Sample.bob] EmptyString).
  - reflexivity.
  - reflexivity.
  - reflexivity.
  - constructor.
  - reflexivity.
Defined.

(** C6: nothing but the not-found of one fork is caught.  In [fnm], with the
    forks before it passed, what the listing of a fork's commits raises, if
    it is not not-found, escapes, and so does the [AttributeError] that
    [click.echo] raises for a fork with something to report; what the
    listing of upstream commits raises escapes, not-found included, and so
    does the [AttributeError] of a context that holds a string.  In [top],
    what a fork's second request raises, if it is not not-found, escapes and
    no table is written.  What the listing of forks raises, once its forks
    are passed, escapes from both commands. *)
Theorem only_not_found_is_caught
    (human : nat -> string -> string) (repo_ctx : RepoCtx.t) (r : Repository.t)
    (flag : sort_flag) (rows : Z) (before : list Fork.t) (fork : Fork.t)
    (after : list Fork.t) (e : exn) (s0 : string) (repos0 : list Repo.t) :
  yielded (RepoCtx.forks repo_ctx) = before ++ fork :: after ->
  e <> NotFoundError ->
  (RepoCtx.repository repo_ctx = RepositoryObj r ->
   failure (Repository.commits r) = None ->
   Forall (fnm_quiet (map Commit.message (yielded (Repository.commits r)))) before ->
   reports (map Commit.message (yielded (Repository.commits r))) fork = false ->
   failure (Fork.commits fork) = Some e ->
   outcome_of (fnm repo_ctx s0) = Raise e) /\
  (RepoCtx.repository repo_ctx = RepositoryObj r ->
   failure (Repository.commits r) = None ->
   Forall (fnm_quiet (map Commit.message (yielded (Repository.commits r)))) before ->
   reports (map Commit.message (yielded (Repository.commits r))) fork = true ->
   outcome_of (fnm repo_ctx s0) = Raise AttributeError) /\
  (Forall (top_passes (RepoCtx.gh repo_ctx) flag) before ->
   secondary (RepoCtx.gh repo_ctx) flag fork = Some (Raise e) ->
   outcome_of (top human repo_ctx (flag_value flag) rows repos0) = Raise e /\
   tables (trace_of (top human repo_ctx (flag_value flag) rows repos0)) = []) /\
  (forall e',
     RepoCtx.repository repo_ctx = RepositoryObj r ->
     failure (Repository.commits r) = Some e' ->
     fnm repo_ctx s0 = ([Call "commits" (Repository.html_url r)], s0, Raise e')) /\
  (forall name,
     RepoCtx.repository repo_ctx = StrObj name ->
     fnm repo_ctx s0 = ([], s0, Raise AttributeError)) /\
  (forall e',
     failure (RepoCtx.forks repo_ctx) = Some e' ->
     (RepoCtx.repository repo_ctx = RepositoryObj r ->
      failure (Repository.commits r) = None ->
      Forall (fnm_quiet (map Commit.message (yielded (Repository.commits r))))
             (yielded (RepoCtx.forks repo_ctx)) ->
      outcome_of (fnm repo_ctx s0) = Raise e') /\
     (Forall (top_passes (RepoCtx.gh repo_ctx) flag) (yielded (RepoCtx.forks repo_ctx)) ->
      outcome_of (top human repo_ctx (flag_value flag) rows repos0) = Raise e')).
Proof.
  intros Hf He. apply not_NotFoundError in He.
  split; [ | split; [ | split; [ | split; [ | split ] ] ] ].
  - intros Hr Hc Hb Hrep Hfork. rewrite (fnm_run repo_ctx r s0 Hr Hc).
    cbn [outcome_of snd]. unfold for_each. rewrite bind_run, Hf.
    rewrite (fnm_forks_stop _ _ _ _ [Call "commits" (Fork.html_url fork)] e Hb).
    + reflexivity.
    + intros s. now rewrite fnm_fork_run, Hrep, Hfork, He.
  - intros Hr Hc Hb Hrep. now rewrite (fnm_stops _ _ _ _ _ _ Hr Hc Hf Hb Hrep).
  - intros Hb Hsec.
    pose proof (top_loop_no_table (RepoCtx.gh repo_ctx) flag
                  (yielded (RepoCtx.forks repo_ctx)) []) as Hno.
    rewrite top_run, Hf in *.
    rewrite (for_in_reach _ _ _ _ (proj2 (top_loop_passes _ _ _ Hb _))) in *.
    cbn [outcome_of snd for_in] in *. rewrite bind_run, top_fork_run, Hsec, He in *.
    cbn [outcome_of trace_of fst snd] in *.
    split; [ reflexivity | now apply tables_none ].
  - intros e' Hr Hc. now apply fnm_upstream_raises.
  - intros name Hr. now apply (fnm_on_a_string _ name).
  - intros e' Hfail. split.
    + intros Hr Hc Hall. rewrite (fnm_run repo_ctx r s0 Hr Hc).
      cbn [outcome_of snd].
      rewrite for_each_run, (fnm_forks_quiet _ _ Hall), Hfail. reflexivity.
    + intros Hall.
      rewrite top_run, (proj2 (top_loop_passes _ _ _ Hall _)), Hfail. reflexivity.
Qed.

Lemma only_not_found_is_caught_witness :
  outcome_of (fnm Quiet.dave_ctx EmptyString) = Raise (OtherError "ConnectionError") /\
  outcome_of (fnm Sample.repo_ctx EmptyString) = Raise AttributeError /\
  (outcome_of (top Sample.human Sample.dave_ctx (flag_value Branches) 10 [])
     = Raise (OtherError "ConnectionError") /\
   tables (trace_of (top Sample.human Sample.dave_ctx (flag_value Branches) 10 [])) = []) /\
  fnm Sample.lost_ctx EmptyString
    = ([Call "commits" (Repository.html_url Sample.lost_upstream)], EmptyString,
       Raise NotFoundError) /\
  fnm Sample.cli_ctx EmptyString = ([], EmptyString, Raise AttributeError) /\
  outcome_of (fnm Quiet.cut_ctx EmptyString) = Raise (OtherError "ConnectionError") /\
  outcome_of (top Sample.human Sample.cut_ctx (flag_value Star) 10 [])
    = Raise (OtherError "ConnectionError").
Proof.
  assert (OtherError "ConnectionError" <> NotFoundError) as Hne by discriminate.
  assert (fnm_quiet Sample.repo_message Quiet.frank) as Hfrank
    by (split; [ reflexivity | left; reflexivity ]).
  assert (fnm_quiet Sample.repo_message Sample.bob) as Hbob
    by (split; [ reflexivity | right; reflexivity ]).
  destruct (only_not_found_is_caught Sample.human Quiet.dave_ctx Sample.upstream
              Branches 10 [Quiet.frank; Sample.bob] Sample.dave [Sample.carol]
              (OtherError "ConnectionError") EmptyString [] eq_refl Hne)
    as (Hfnm & _).
  destruct (only_not_found_is_caught Sample.human Sample.repo_ctx Sample.upstream
              Branches 10 [] Sample.alice [Sample.bob; Sample.carol]
              (OtherError "ConnectionError") EmptyString [] eq_refl Hne)
    as (_ & Hecho & _).
  destruct (only_not_found_is_caught Sample.human Sample.dave_ctx Sample.upstream
              Branches 10 [Sample.alice] Sample.dave [Sample.carol]
              (OtherError "ConnectionError") EmptyString [] eq_refl Hne)
    as (_ & _ & Htop & _).
  destruct (only_not_found_is_caught Sample.human Sample.lost_ctx Sample.lost_upstream
              Branches 10 [] Sample.alice []
              (OtherError "ConnectionError") EmptyString [] eq_refl Hne)
    as (_ & _ & _ & Hupstream & _).
  destruct (only_not_found_is_caught Sample.human Sample.cli_ctx Sample.upstream
              Branches 10 [] Sample.alice [Sample.bob; Sample.carol]
              (OtherError "ConnectionError") EmptyString [] eq_refl Hne)
    as (_ & _ & _ & _ & Hstring & _).
  destruct (only_not_found_is_caught Sample.human Quiet.cut_ctx Sample.upstream
              Star 10 [Quiet.frank] Sample.bob []
              (OtherError "ConnectionError") EmptyString [] eq_refl Hne)
    as (_ & _ & _ & _ & _ & Hcut).
  destruct (Hcut (OtherError "ConnectionError") eq_refl) as [Hcut_fnm _].
  destruct (only_not_found_is_caught Sample.human Sample.cut_ctx Sample.upstream
              Star 10 [Sample.alice] Sample.carol []
              (OtherError "ConnectionError") EmptyString [] eq_refl Hne)
    as (_ & _ & _ & _ & _ & Hcut').
  destruct (Hcut' (OtherError "ConnectionError") eq_refl) as [_ Hcut_top].
  split; [ | split; [ | split; [ | split; [ | split; [ | split ] ] ] ] ].
  - apply Hfnm; try reflexivity.
    apply Forall_cons; [ exact Hfrank | ].
    apply Forall_cons; [ exact Hbob | apply Forall_nil ].
  - apply Hecho; try reflexivity. apply Forall_nil.
  - apply Htop; [ | reflexivity ].
    apply Forall_cons; [ | apply Forall_nil ].
    intros e He. vm_compute in He. discriminate He.
  - apply Hupstream; reflexivity.
  - apply (Hstring "forkwork"). reflexivity.
  - apply Hcut_fnm; try reflexivity.
    apply Forall_cons; [ exact Hfrank | ].
    apply Forall_cons; [ exact Hbob | apply Forall_nil ].
  - apply Hcut_top. apply Forall_forall. intros f _ e He. discriminate He.
Defined.

(** * Further properties *)

(** ** [cli]: the path of the URL *)

Lemma split_slash_not_nil s : split_slash s <> [].
Proof.
  destruct s as [ | c s ]; cbn; [ discriminate | ].
  destruct (split_slash s); [ discriminate | ].
  destruct (Ascii.eqb c "/"); discriminate.
Qed.

Lemma split_slash_length s : List.length (split_slash s) = S (count_slash s).
Proof.
  induction s as [ | c s IH ]; [ reflexivity | ].
  cbn [split_slash count_slash].
  destruct (split_slash s) as [ | w ws ] eqn:E; [ now elim (split_slash_not_nil s) | ].
  destruct (Ascii.eqb c "/"); cbn in *; lia.
Qed.

Lemma split_slash_pieces s : Forall (fun w => count_slash w = 0) (split_slash s).
Proof.
  induction s as [ | c s IH ]; [ repeat constructor | ].
  cbn [split_slash].
  destruct (split_slash s) as [ | w ws ] eqn:E; [ repeat constructor | ].
  apply Forall_cons_iff in IH. destruct IH as [Hw Hws].
  destruct (Ascii.eqb c "/") eqn:Ec.
  - repeat constructor; assumption.
  - constructor; [ | exact Hws ]. cbn. now rewrite Ec.
Qed.

Lemma join_split_slash s : join_slash (split_slash s) = s.
Proof.
  induction s as [ | c s IH ]; [ reflexivity | ].
  cbn [split_slash].
  destruct (split_slash s) as [ | w ws ] eqn:E; [ now elim (split_slash_not_nil s) | ].
  destruct (Ascii.eqb c "/") eqn:Ec.
  - apply Ascii.eqb_eq in Ec. subst c.
    change (join_slash (EmptyString :: w :: ws))
      with (String "/" (join_slash (w :: ws))).
    now rewrite IH.
  - destruct ws as [ | w' ws ]; cbn in *; now rewrite IH.
Qed.

(** X1: [cli] takes the path of the URL, without its first character, to
    be [owner/name]: when it does not hold exactly one slash the unpacking
    fails and [cli] raises [ValueError], whatever the session would answer:
    no repository is asked for. *)
Theorem cli_rejects_other_paths
    (urlparse_path : string -> string) (gh : GitHub.t) (url : string) :
  count_slash (tail_of (urlparse_path url)) <> 1 ->
  cli urlparse_path gh url tt = ([], tt, Raise ValueError).
Proof.
  intros H. unfold cli.
  pose proof (split_slash_length (tail_of (urlparse_path url))) as Hlen.
  destruct (split_slash (tail_of (urlparse_path url))) as [ | a [ | b [ | c l ] ] ];
    try reflexivity.
  cbn in Hlen. elim H. lia.
Qed.

Lemma cli_rejects_other_paths_witness :
  cli Cases.urlparse_trailing Sample.gh Sample.url tt = ([], tt, Raise ValueError).
Proof.
  apply (cli_rejects_other_paths Cases.urlparse_trailing Sample.gh Sample.url).
  vm_compute. discriminate.
Defined.

(** X2: when the path, without its first character, holds exactly one
    slash, it is [login ++ "/" ++ repo] for two strings without a slash.
    When neither is empty [cli] asks the session for the repository of
    exactly that owner and that name, lets whatever exception the request
    raises escape (not-found included), and otherwise returns a context with
    the name, the session and the fork listing of the repository it
    fetched.  When the owner or the name is empty the session answers
    [None] and [cli] raises [AttributeError] on asking it for its forks.
    In every case [cli] writes nothing. *)
Theorem cli_asks_for_owner_and_name
    (urlparse_path : string -> string) (gh : GitHub.t) (url : string) :
  count_slash (tail_of (urlparse_path url)) = 1 ->
  exists login repo,
    tail_of (urlparse_path url) = (login ++ String "/"%char repo)%string /\
    count_slash login = 0 /\ count_slash repo = 0 /\
    cli urlparse_path gh url tt =
    match login, repo with
    | String _ _, String _ _ =>
        match GitHub.repository gh login repo with
        | Ok fetched =>
            ([], tt, Ok (RepoCtx.Make (StrObj repo) (Repository.forks fetched) gh))
        | Raise e => ([], tt, Raise e)
        end
    | _, _ => ([], tt, Raise AttributeError)
    end.
Proof.
  intros H. unfold cli.
  pose proof (split_slash_length (tail_of (urlparse_path url))) as Hlen.
  pose proof (split_slash_pieces (tail_of (urlparse_path url))) as Hfree.
  pose proof (join_split_slash (tail_of (urlparse_path url))) as Hjoin.
  destruct (split_slash (tail_of (urlparse_path url))) as [ | a [ | b [ | c l ] ] ];
    cbn in Hlen; try lia.
  exists a, b. apply Forall_cons_iff in Hfree. destruct Hfree as [Ha Hb].
  apply Forall_cons_iff in Hb. destruct Hb as [Hb _].
  split; [ now rewrite <- Hjoin | ]. split; [ exact Ha | ]. split; [ exact Hb | ].
  rewrite lift_bind. unfold repository_or_None.
  destruct a as [ | ca a ]; [ reflexivity | ].
  destruct b as [ | cb b ]; [ reflexivity | ].
  cbn [truthy andb]. now destruct (GitHub.repository gh _ _).
Qed.

Lemma cli_asks_for_owner_and_name_witness :
  exists login repo,
    tail_of (Cases.urlparse_no_name Sample.url) = (login ++ String "/"%char repo)%string /\
    count_slash login = 0 /\ count_slash repo = 0 /\
    cli Cases.urlparse_no_name Sample.gh Sample.url tt =
    match login, repo with
    | String _ _, String _ _ =>
        match GitHub.repository Sample.gh login repo with
        | Ok fetched =>
            ([], tt, Ok (RepoCtx.Make (StrObj repo) (Repository.forks fetched) Sample.gh))
        | Raise e => ([], tt, Raise e)
        end
    | _, _ => ([], tt, Raise AttributeError)
    end.
Proof.
  apply (cli_asks_for_owner_and_name Cases.urlparse_no_name Sample.gh Sample.url).
  reflexivity.
Defined.

(** ** [fnm]: one turn of the loop, and how the run ends *)

(** X3: what one turn of the loop of [fnm] does, in full.  It asks for the
    fork's commits.  When the fork yields a commit whose message upstream
    lacks, the turn ends there with [AttributeError]: the call of
    [click.echo] that was to write the header or the entry raises it, and it
    is not what the handler catches; no notice is written, even when the
    listing would have broken with not-found further on.  Otherwise nothing
    is written for the commits; a listing that breaks with not-found gets
    the notice, and any other exception of the listing escapes.  The turn
    writes no header and no entry, and [old_login] is never changed. *)
Theorem fnm_fork_output (repo_message : list string) (fork : Fork.t) (old_login : string) :
  fnm_fork repo_message fork old_login =
  if reports repo_message fork
  then ([Call "commits" (Fork.html_url fork)], old_login, Raise AttributeError)
  else (fork_turn fork, old_login,
        match failure (Fork.commits fork) with
        | None | Some NotFoundError => Ok tt
        | Some e => Raise e
        end).
Proof.
  rewrite fnm_fork_run. unfold fork_turn.
  destruct (reports repo_message fork); [ reflexivity | ].
  destruct (failure (Fork.commits fork)) as [ [] | ]; reflexivity.
Qed.

Lemma fnm_forks_outcome repo_message fs :
  forall s,
    (outcome_of (for_in fs (fnm_fork repo_message) s) = Ok tt
     <-> Forall (fnm_quiet repo_message) fs) /\
    (forall e, outcome_of (for_in fs (fnm_fork repo_message) s) = Raise e ->
               exists f, In f fs /\
                 ((reports repo_message f = true /\ e = AttributeError) \/
                  (failure (Fork.commits f) = Some e /\ e <> NotFoundError))).
Proof.
  induction fs as [ | f fs IH ]; intros s.
  - split; [ split; [ constructor | reflexivity ] | discriminate ].
  - cbn [for_in]. rewrite bind_run, fnm_fork_run.
    destruct (IH s) as [Hok Hraise].
    assert (forall e, outcome_of (for_in fs (fnm_fork repo_message) s) = Raise e ->
              exists f', In f' (f :: fs) /\
                ((reports repo_message f' = true /\ e = AttributeError) \/
                 (failure (Fork.commits f') = Some e /\ e <> NotFoundError))) as Hraise'.
    { intros e He. destruct (Hraise e He) as (f' & Hin & H). exists f'.
      split; [ now right | exact H ]. }
    destruct (reports repo_message f) eqn:Er.
    + cbn [outcome_of snd]. split.
      * split; [ discriminate | ]. intros H. apply Forall_cons_iff in H.
        destruct H as [[H _] _]. congruence.
      * intros e He. injection He as <-. exists f. split; [ now left | now left ].
    + destruct (failure (Fork.commits f)) as [ e | ] eqn:Ef;
        [ destruct (is_NotFoundError e) eqn:Ee | ];
        cbn [outcome_of trace_of state_of fst snd].
      * destruct e; try discriminate Ee. split; [ | exact Hraise' ].
        rewrite Hok. split; intros H.
        -- constructor; [ split; [ exact Er | now right ] | exact H ].
        -- now apply Forall_cons_iff in H.
      * split.
        -- split; [ discriminate | ]. intros H. apply Forall_cons_iff in H.
           destruct H as [[_ [H | H]] _]; rewrite Ef in H; [ discriminate H | ].
           injection H as ->. discriminate Ee.
        -- intros e' He'. injection He' as <-. exists f.
           split; [ now left | ]. right. split; [ exact Ef | ].
           intros ->. discriminate Ee.
      * split; [ | exact Hraise' ].
        rewrite Hok. split; intros H.
        -- constructor; [ split; [ exact Er | now left ] | exact H ].
        -- now apply Forall_cons_iff in H.
Qed.

(** X6: how a run of [fnm] ends.  It ends well exactly when its context
    holds a repository whose commit listing ends, no listed fork yields a
    commit whose message upstream lacks, every fork's listing ends or breaks
    with not-found, and the fork listing ends.  An exception that escapes
    is [AttributeError] for a context that holds a string, or the one the
    API raised for the upstream commits, or [AttributeError] for a listed
    fork with a commit to report, or the one the API raised for the commits
    of a listed fork (then it is not not-found), or the one the API raised
    for the fork listing. *)
Theorem fnm_outcome (repo_ctx : RepoCtx.t) (s0 : string) :
  (outcome_of (fnm repo_ctx s0) = Ok tt <->
   exists r, RepoCtx.repository repo_ctx = RepositoryObj r /\
             failure (Repository.commits r) = None /\
             Forall (fnm_quiet (map Commit.message (yielded (Repository.commits r))))
                    (yielded (RepoCtx.forks repo_ctx)) /\
             failure (RepoCtx.forks repo_ctx) = None) /\
  (forall e,
     outcome_of (fnm repo_ctx s0) = Raise e ->
     (exists name, RepoCtx.repository repo_ctx = StrObj name /\ e = AttributeError) \/
     (exists r, RepoCtx.repository repo_ctx = RepositoryObj r /\
                failure (Repository.commits r) = Some e) \/
     (exists r f, RepoCtx.repository repo_ctx = RepositoryObj r /\
                  In f (yielded (RepoCtx.forks repo_ctx)) /\
                  reports (map Commit.message (yielded (Repository.commits r))) f = true /\
                  e = AttributeError) \/
     (exists f, In f (yielded (RepoCtx.forks repo_ctx)) /\
                failure (Fork.commits f) = Some e /\ e <> NotFoundError) \/
     failure (RepoCtx.forks repo_ctx) = Some e).
Proof.
  destruct (RepoCtx.repository repo_ctx) as [ name | r ] eqn:Hr.
  - rewrite (fnm_on_a_string repo_ctx name s0 Hr). split.
    + split; [ discriminate | ]. intros (r & Hr' & _). discriminate Hr'.
    + intros e He. injection He as <-. left. now exists name.
  - destruct (failure (Repository.commits r)) as [ e0 | ] eqn:Hc.
    + rewrite (fnm_upstream_raises repo_ctx r e0 s0 Hr Hc). split.
      * split; [ discriminate | ]. intros (r' & Hr' & Hc' & _).
        injection Hr' as <-. rewrite Hc in Hc'. discriminate Hc'.
      * intros e He. injection He as <-. right. left. now exists r.
    + rewrite (fnm_run repo_ctx r s0 Hr Hc). cbn [outcome_of snd].
      rewrite for_each_run.
      destruct (fnm_forks_outcome (map Commit.message (yielded (Repository.commits r)))
                  (yielded (RepoCtx.forks repo_ctx)) EmptyString) as [Hok Hraise].
      destruct (outcome_of (for_in (yielded (RepoCtx.forks repo_ctx)) _ EmptyString))
        as [ [] | e1 ] eqn:Eo.
      * destruct (failure (RepoCtx.forks repo_ctx)) as [ e2 | ] eqn:Ef;
          cbn [outcome_of snd].
        -- split.
           ++ split; [ discriminate | ]. intros (_ & _ & _ & _ & H). discriminate H.
           ++ intros e He. injection He as <-. now do 4 right.
        -- rewrite Eo. split.
           ++ split; [ | reflexivity ]. intros _. exists r.
              split; [ reflexivity | ]. split; [ exact Hc | ].
              split; [ now apply Hok | reflexivity ].
           ++ discriminate.
      * rewrite Eo. split.
        -- split; [ discriminate | ]. intros (r' & Hr' & _ & Hp & _).
           injection Hr' as <-. apply Hok in Hp. discriminate Hp.
        -- intros e He. injection He as <-.
           destruct (Hraise e1 eq_refl) as (f & Hin & [[Hrep ->] | [Hf Hne]]).
           ++ right. right. left. now exists r, f.
           ++ right. right. right. left. now exists f.
Qed.

(** ** [top]: a table only after the loop *)

Lemma top_loop_raise gh flag fs :
  forall repos e,
    outcome_of (for_in fs (top_fork gh (flag_value flag) (fields_of flag)) repos) = Raise e ->
    exists f, In f fs /\ secondary gh flag f = Some (Raise e) /\ e <> NotFoundError.
Proof.
  induction fs as [ | f fs IH ]; intros repos e H; [ discriminate H | ].
  cbn [for_in] in H. rewrite bind_run, top_fork_run in H.
  destruct (secondary gh flag f) as [ [ n | e' ] | ] eqn:E.
  - destruct (IH _ _ H) as (f' & Hin & Hs & Hne). exists f'. now repeat split; [ right | | ].
  - destruct (is_NotFoundError e') eqn:Ee.
    + destruct (IH _ _ H) as (f' & Hin & Hs & Hne). exists f'. now repeat split; [ right | | ].
    + injection H as <-. exists f. repeat split; [ now left | exact E | ].
      intros ->. discriminate Ee.
  - destruct (IH _ _ H) as (f' & Hin & Hs & Hne). exists f'. now repeat split; [ right | | ].
Qed.

(** X8: [top] writes a table only after the loop is through.  A run that
    writes a table has passed every listed fork, the fork listing has ended,
    the table is the only one and the last thing written, and the run ends
    well.  When some fork is not passed or the fork listing breaks, the run
    writes no table and the exception that escapes is the one the API
    raised: for the second request of a listed fork (then it is not
    not-found) or for the fork listing. *)
Theorem top_table_only_after_the_loop
    (human : nat -> string -> string) (repo_ctx : RepoCtx.t) (flag : sort_flag)
    (rows : Z) (s0 : list Repo.t) :
  (tables (trace_of (top human repo_ctx (flag_value flag) rows s0)) <> [] ->
   Forall (top_passes (RepoCtx.gh repo_ctx) flag) (yielded (RepoCtx.forks repo_ctx)) /\
   failure (RepoCtx.forks repo_ctx) = None /\
   outcome_of (top human repo_ctx (flag_value flag) rows s0) = Ok tt /\
   exists t table headers,
     trace_of (top human repo_ctx (flag_value flag) rows s0)
       = t ++ [EchoTable table headers] /\
     tables t = []) /\
  (~ (Forall (top_passes (RepoCtx.gh repo_ctx) flag) (yielded (RepoCtx.forks repo_ctx)) /\
      failure (RepoCtx.forks repo_ctx) = None) ->
   tables (trace_of (top human repo_ctx (flag_value flag) rows s0)) = [] /\
   exists e,
     outcome_of (top human repo_ctx (flag_value flag) rows s0) = Raise e /\
     ((exists f, In f (yielded (RepoCtx.forks repo_ctx)) /\
                 secondary (RepoCtx.gh repo_ctx) flag f = Some (Raise e) /\
                 e <> NotFoundError) \/
      failure (RepoCtx.forks repo_ctx) = Some e)).
Proof.
  pose proof (top_loop_raise (RepoCtx.gh repo_ctx) flag
                (yielded (RepoCtx.forks repo_ctx)) []) as Hr.
  pose proof (top_loop_ok (RepoCtx.gh repo_ctx) flag
                (yielded (RepoCtx.forks repo_ctx)) []) as Hl.
  pose proof (tables_none _ (top_loop_no_table (RepoCtx.gh repo_ctx) flag
                (yielded (RepoCtx.forks repo_ctx)) [])) as Hno.
  rewrite top_run. cbn zeta.
  destruct (outcome_of (for_in _ _ _)) as [ [] | e1 ] eqn:Eo.
  - destruct (failure (RepoCtx.forks repo_ctx)) as [ e2 | ] eqn:Ef.
    + cbn [trace_of outcome_of fst snd]. split; [ intros H; now elim H | ].
      intros _. split; [ exact Hno | ]. exists e2. split; [ reflexivity | now right ].
    + destruct (sorted_reverse _ _) as [ sorted_forks | e3 ].
      * destruct (humanize_dates _ _ _) as [ table | e4 ];
          cbn [trace_of outcome_of fst snd].
        -- split.
           ++ intros _. split; [ now apply Hl | ]. split; [ reflexivity | ].
              split; [ reflexivity | ]. eexists _, _, _. split; [ reflexivity | exact Hno ].
           ++ intros H. elim H. split; [ now apply Hl | reflexivity ].
        -- split; [ intros H; now elim H | ].
           intros H. elim H. split; [ now apply Hl | reflexivity ].
      * cbn [trace_of outcome_of fst snd]. split; [ intros H; now elim H | ].
        intros H. elim H. split; [ now apply Hl | reflexivity ].
  - cbn [trace_of outcome_of fst snd]. split; [ intros H; now elim H | ].
    intros _. split; [ exact Hno | ]. exists e1. split; [ reflexivity | ].
    left. now apply Hr.
Qed.

Lemma top_table_only_after_the_loop_witness :
  tables (trace_of (top Sample.human Sample.dave_ctx (flag_value Branches) 10 [])) = [] /\
  exists e,
    outcome_of (top Sample.human Sample.dave_ctx (flag_value Branches) 10 []) = Raise e /\
    ((exists f, In f (yielded (RepoCtx.forks Sample.dave_ctx)) /\
                secondary (RepoCtx.gh Sample.dave_ctx) Branches f = Some (Raise e) /\
                e <> NotFoundError) \/
     failure (RepoCtx.forks Sample.dave_ctx) = Some e).
Proof.
  apply (top_table_only_after_the_loop Sample.human Sample.dave_ctx Branches 10 []).
  intros [H _]. apply Forall_cons_iff in H. destruct H as [_ H].
  apply Forall_cons_iff in H. destruct H as [H _].
  specialize (H (OtherError "ConnectionError") eq_refl). discriminate H.
Defined.

(** X13: in [top] under a slow key, a fork whose second request raises
    not-found is skipped with a notice and the run goes on.  With the forks
    before it passed, the run over a listing that has such a fork is the run
    over the listing without it, with the request and the notice added at
    the fork's place: same rows kept, same outcome, same other output, so
    the fork's row is in no table. *)
Theorem top_skips_not_found_fork
    (human : nat -> string -> string) (repo_ctx : RepoCtx.t)
    (flag : sort_flag) (rows : Z) (before : list Fork.t) (fork : Fork.t)
    (after : list Fork.t) (repos0 : list Repo.t) :
  yielded (RepoCtx.forks repo_ctx) = before ++ fork :: after ->
  Forall (top_passes (RepoCtx.gh repo_ctx) flag) before ->
  secondary (RepoCtx.gh repo_ctx) flag fork = Some (Raise NotFoundError) ->
  with_extra_events
    [Call (secondary_method flag) (Fork.html_url fork);
     Echo [not_found_notice newline fork]]
    (top human repo_ctx (flag_value flag) rows repos0)
    (top human (with_forks repo_ctx (before ++ after)) (flag_value flag) rows repos0).
Proof.
  intros Hf Hb Hsec. unfold top.
  rewrite !put_bind, !lift_bind, top_columns_flag. cbn [fst snd].
  apply with_extra_bind.
  rewrite (listing_eta (RepoCtx.forks repo_ctx)), Hf.
  unfold with_forks. cbn [RepoCtx.forks RepoCtx.gh].
  apply for_each_skip.
  - intros s'. rewrite top_fork_run, Hsec. reflexivity.
  - now apply top_loop_passes.
Qed.

Lemma top_skips_not_found_fork_witness :
  with_extra_events
    [Call (secondary_method Branches) (Fork.html_url Sample.bob);
     Echo [not_found_notice newline Sample.bob]]
    (top Sample.human Sample.repo_ctx (flag_value Branches) 10 [])
    (top Sample.human (with_forks Sample.repo_ctx ([Sample.alice] ++ [Sample.carol]))
         (flag_value Branches) 10 []).
Proof.
  apply (top_skips_not_found_fork Sample.human Sample.repo_ctx Branches 10
           [Sample.alice] Sample.bob [Sample.carol] []).
  - reflexivity.
  - apply Forall_cons; [ | apply Forall_nil ].
    intros e He. vm_compute in He. discriminate He.
  - reflexivity.
Defined.

(** ** [top]: how many rows, and the whole trace *)

Lemma slice_to_length_exact {A} (l : list A) (stop : Z) :
  Z.of_nat (List.length (slice_to l stop)) =
  if (stop <? 0)%Z then Z.max 0 (Z.of_nat (List.length l) + stop)
  else Z.min stop (Z.of_nat (List.length l)).
Proof.
  unfold slice_to. rewrite length_firstn.
  destruct (stop <? 0)%Z eqn:E; [ apply Z.ltb_lt in E | apply Z.ltb_ge in E ]; lia.
Qed.

Lemma slice_to_all {A} (l : list A) (stop : Z) :
  (Z.of_nat (List.length l) <= stop)%Z -> slice_to l stop = l.
Proof.
  intros H. unfold slice_to.
  destruct (stop <? 0)%Z eqn:E; [ apply Z.ltb_lt in E; lia | ].
  apply firstn_all2. lia.
Qed.

(** X9: how many rows the table of [top] has.  With [n] forks kept, a row
    limit that is not negative gives [min rows n] rows (none for [--rows 0]),
    and a negative one gives [n + rows] rows, or none when that is negative:
    the last [-rows] rows of the ranking are cut.  When the limit is [n] or
    more, the table holds the row of every kept fork, once. *)
Theorem top_table_length
    (human : nat -> string -> string) (repo_ctx : RepoCtx.t) (flag : sort_flag)
    (rows : Z) (s0 : list Repo.t) (table : list Repo.t) (headers : list string) :
  In (EchoTable table headers)
     (trace_of (top human repo_ctx (flag_value flag) rows s0)) ->
  let kept := candidates (RepoCtx.gh repo_ctx) flag (yielded (RepoCtx.forks repo_ctx)) in
  Z.of_nat (List.length table) =
    (if (rows <? 0)%Z then Z.max 0 (Z.of_nat (List.length kept) + rows)
     else Z.min rows (Z.of_nat (List.length kept))) /\
  (List.length kept <= List.length (yielded (RepoCtx.forks repo_ctx)))%nat /\
  ((Z.of_nat (List.length kept) <= rows)%Z ->
   exists sorted_forks,
     Permutation sorted_forks kept /\ Forall2 (humanized human) sorted_forks table).
Proof.
  intros Hin kept.
  destruct (top_table_ranked _ _ _ _ _ _ _ Hin) as (sorted_forks & Hs & H2).
  fold kept in Hs. destruct (sorted_reverse_spec _ _ _ Hs) as (_ & Hlen & _).
  split; [ | split ].
  - rewrite (Forall2_length_eq _ _ _ H2), slice_to_length_exact, Hlen. reflexivity.
  - unfold kept, candidates. clear.
    induction (yielded (RepoCtx.forks repo_ctx)) as [ | f fs IH ]; [ reflexivity | ].
    cbn [flat_map]. rewrite length_app.
    destruct (kept_row (RepoCtx.gh repo_ctx) flag f); cbn in *; lia.
  - intros Hrows. exists sorted_forks. split; [ exact (sorted_reverse_perm _ _ _ Hs) | ].
    rewrite slice_to_all in H2 by now rewrite Hlen.
    eapply Forall2_weaken; [ | exact H2 ]. now intros r h [H _].
Qed.

Lemma top_table_length_witness :
  Z.of_nat (List.length Sample.watchers_table) =
    (if (10 <? 0)%Z
     then Z.max 0 (Z.of_nat (List.length
                      (candidates (RepoCtx.gh Sample.repo_ctx) Watchers_count
                                  (yielded (RepoCtx.forks Sample.repo_ctx)))) + 10)
     else Z.min 10 (Z.of_nat (List.length
                      (candidates (RepoCtx.gh Sample.repo_ctx) Watchers_count
                                  (yielded (RepoCtx.forks Sample.repo_ctx)))))) /\
  (List.length (candidates (RepoCtx.gh Sample.repo_ctx) Watchers_count
                           (yielded (RepoCtx.forks Sample.repo_ctx)))
   <= List.length (yielded (RepoCtx.forks Sample.repo_ctx)))%nat /\
  ((Z.of_nat (List.length (candidates (RepoCtx.gh Sample.repo_ctx) Watchers_count
                                      (yielded (RepoCtx.forks Sample.repo_ctx)))) <= 10)%Z ->
   exists sorted_forks,
     Permutation sorted_forks
       (candidates (RepoCtx.gh Sample.repo_ctx) Watchers_count
                   (yielded (RepoCtx.forks Sample.repo_ctx))) /\
     Forall2 (humanized Sample.human) sorted_forks Sample.watchers_table).
Proof.
  apply (top_table_length Sample.human Sample.repo_ctx Watchers_count 10 []
           Sample.watchers_table Sample.watchers_headers).
  find_in_trace.
Defined.

Lemma top_loop_requests gh flag fs :
  Forall (top_passes gh flag) fs ->
  forall repos,
    trace_of (for_in fs (top_fork gh (flag_value flag) (fields_of flag)) repos)
    = flat_map (fork_requests gh flag) fs.
Proof.
  induction 1 as [ | f fs Hf _ IH ]; intros repos; [ reflexivity | ].
  cbn [for_in flat_map]. rewrite bind_run, top_fork_run. unfold fork_requests at 1.
  red in Hf. destruct (secondary gh flag f) as [ [ n | e ] | ].
  - cbn [trace_of fst]. now rewrite IH.
  - rewrite (Hf e eq_refl). cbn [is_NotFoundError trace_of fst]. now rewrite IH.
  - cbn [trace_of fst]. now rewrite IH.
Qed.

(** X10: the whole trace of a run of [top] that ends well.  Under a slow key
    each fork, in the order of the listing, gets exactly one second request,
    followed at once by the notice when the request was not found; under a
    fast key the forks add nothing; the table comes last, after every
    notice. *)
Theorem top_trace_by_fork
    (human : nat -> string -> string) (repo_ctx : RepoCtx.t) (flag : sort_flag)
    (rows : Z) (s0 : list Repo.t) :
  Forall (top_passes (RepoCtx.gh repo_ctx) flag) (yielded (RepoCtx.forks repo_ctx)) ->
  failure (RepoCtx.forks repo_ctx) = None ->
  exists table,
    trace_of (top human repo_ctx (flag_value flag) rows s0)
    = flat_map (fork_requests (RepoCtx.gh repo_ctx) flag) (yielded (RepoCtx.forks repo_ctx))
      ++ [EchoTable table (fixed_headers ++ extra_header flag)] /\
    Forall (fun ev => is_table ev = false)
           (flat_map (fork_requests (RepoCtx.gh repo_ctx) flag)
                     (yielded (RepoCtx.forks repo_ctx))).
Proof.
  intros Hp Hf. pose proof (top_renders human repo_ctx flag rows s0 Hp Hf) as Hr.
  pose proof (top_loop_no_table (RepoCtx.gh repo_ctx) flag
                (yielded (RepoCtx.forks repo_ctx)) []) as Hno.
  rewrite top_run, Hf in *. rewrite (top_loop_requests _ _ _ Hp) in *.
  destruct (top_loop_passes _ _ _ Hp []) as [_ Hok]. rewrite Hok in *.
  destruct Hr as (t & table & Hr).
  destruct (sorted_reverse _ _); [ | discriminate Hr ].
  destruct (humanize_dates _ _ _) as [ hs | ]; [ | discriminate Hr ].
  exists hs. split; [ reflexivity | exact Hno ].
Qed.

Lemma top_trace_by_fork_witness :
  exists table,
    trace_of (top Sample.human Sample.repo_ctx (flag_value Branches) 10 [])
    = flat_map (fork_requests (RepoCtx.gh Sample.repo_ctx) Branches)
               (yielded (RepoCtx.forks Sample.repo_ctx))
      ++ [EchoTable table (fixed_headers ++ extra_header Branches)] /\
    Forall (fun ev => is_table ev = false)
           (flat_map (fork_requests (RepoCtx.gh Sample.repo_ctx) Branches)
                     (yielded (RepoCtx.forks Sample.repo_ctx))).
Proof.
  apply (top_trace_by_fork Sample.human Sample.repo_ctx Branches 10 []).
  - apply Forall_forall. intros f Hf e He.
    cbn in Hf. destruct Hf as [ <- | [ <- | [ <- | [] ] ] ];
      vm_compute in He; congruence.
  - reflexivity.
Defined.

(** ** [top]: the order of the fork listing *)

Lemma py_lt_antisym a b : py_lt a b = false -> py_lt b a = false -> a = b.
Proof.
  destruct a as [ x | x ], b as [ y | y ]; cbn; try congruence.
  - rewrite !Z.ltb_ge. intros H1 H2. f_equal. lia.
  - unfold String.ltb. rewrite (String.compare_antisym y x).
    destruct (String.compare x y) eqn:E; cbn; try congruence.
    intros _ _. f_equal. now apply String.compare_eq_iff.
Qed.

(** Rows with different values of the field have one ranking only. *)
Lemma ranking_unique name (l1 : list Repo.t) :
  forall l2,
    StronglySorted (ranks_before name) l1 ->
    StronglySorted (ranks_before name) l2 ->
    Permutation l1 l2 ->
    NoDup (map (fun r => getattr r name) l1) ->
    l1 = l2.
Proof.
  induction l1 as [ | a l1 IH ]; intros l2 S1 S2 P ND.
  - symmetry. now apply Permutation_nil.
  - destruct l2 as [ | b l2 ].
    { apply Permutation_sym in P. now apply Permutation_nil_cons in P. }
    apply StronglySorted_inv in S1. destruct S1 as [S1 A1].
    apply StronglySorted_inv in S2. destruct S2 as [S2 A2].
    cbn [map] in ND. apply NoDup_cons_iff in ND. destruct ND as [Na ND].
    assert (a = b) as <-.
    { pose proof (Permutation_in b (Permutation_sym P) (or_introl eq_refl)) as Hb.
      pose proof (Permutation_in a P (or_introl eq_refl)) as Ha.
      destruct Hb as [ Hb | Hb ]; [ exact Hb | ].
      destruct Ha as [ Ha | Ha ]; [ now symmetry | ].
      exfalso. rewrite Forall_forall in A1, A2.
      destruct (A1 _ Hb) as (va & vb & Hva & Hvb & Hab).
      destruct (A2 _ Ha) as (vb' & va' & Hvb' & Hva' & Hba).
      rewrite Hva in Hva'. injection Hva' as <-.
      rewrite Hvb in Hvb'. injection Hvb' as <-.
      pose proof (py_lt_antisym _ _ Hab Hba) as ->.
      apply Na. rewrite Hva, <- Hvb.
      exact (in_map (fun r => getattr r name) l1 b Hb). }
    f_equal. apply IH; try assumption. now apply Permutation_cons_inv in P.
Qed.

Lemma top_table_passes human repo_ctx flag rows s0 table headers :
  In (EchoTable table headers)
     (trace_of (top human repo_ctx (flag_value flag) rows s0)) ->
  Forall (top_passes (RepoCtx.gh repo_ctx) flag) (yielded (RepoCtx.forks repo_ctx)) /\
  failure (RepoCtx.forks repo_ctx) = None.
Proof.
  rewrite top_run.
  pose proof (top_loop_no_table (RepoCtx.gh repo_ctx) flag
                (yielded (RepoCtx.forks repo_ctx)) []) as Hno.
  pose proof (top_loop_ok (RepoCtx.gh repo_ctx) flag
                (yielded (RepoCtx.forks repo_ctx)) []) as Hok.
  rewrite Forall_forall in Hno.
  assert (forall ev, In ev (trace_of (for_in (yielded (RepoCtx.forks repo_ctx))
            (top_fork (RepoCtx.gh repo_ctx) (flag_value flag) (fields_of flag)) [])) ->
            ev <> EchoTable table headers) as Hne.
  { intros ev Hin ->. specialize (Hno _ Hin). discriminate Hno. }
  destruct (outcome_of (for_in _ _ _)) as [ [] | e ];
    [ | intros Hin; now elim (Hne _ Hin) ].
  destruct (failure (RepoCtx.forks repo_ctx)) as [ e | ];
    [ intros Hin; now elim (Hne _ Hin) | ].
  intros _. split; [ now apply Hok | reflexivity ].
Qed.

(** X11: the order of the fork listing reaches the table of [top] through
    ties only.  When no two kept forks have the same value of the sort
    field, a run over the same forks listed in any other order, with the
    same session, writes the same table. *)
Theorem top_table_ignores_listing_order
    (human : nat -> string -> string) (repo_ctx repo_ctx' : RepoCtx.t)
    (flag : sort_flag) (rows : Z) (s0 s0' : list Repo.t)
    (table : list Repo.t) (headers : list string) :
  Permutation (yielded (RepoCtx.forks repo_ctx)) (yielded (RepoCtx.forks repo_ctx')) ->
  RepoCtx.gh repo_ctx' = RepoCtx.gh repo_ctx ->
  failure (RepoCtx.forks repo_ctx') = None ->
  NoDup (map (fun r => getattr r (flag_value flag))
             (candidates (RepoCtx.gh repo_ctx) flag (yielded (RepoCtx.forks repo_ctx)))) ->
  In (EchoTable table headers)
     (trace_of (top human repo_ctx (flag_value flag) rows s0)) ->
  In (EchoTable table headers)
     (trace_of (top human repo_ctx' (flag_value flag) rows s0')).
Proof.
  intros Hperm Hgh Hf' Hnd Hin.
  destruct (top_table _ _ _ _ _ _ _ Hin) as (Hh & sf & Hs & Ht).
  destruct (top_table_passes _ _ _ _ _ _ _ Hin) as [Hp _].
  assert (Forall (top_passes (RepoCtx.gh repo_ctx') flag)
                 (yielded (RepoCtx.forks repo_ctx'))) as Hp'.
  { rewrite Hgh. eapply Permutation_Forall; eassumption. }
  destruct (top_renders human repo_ctx' flag rows s0' Hp' Hf') as (t & table' & Htop).
  assert (In (EchoTable table' (fixed_headers ++ extra_header flag))
             (trace_of (top human repo_ctx' (flag_value flag) rows s0'))) as Hin'.
  { rewrite Htop. cbn [trace_of fst]. apply in_or_app. right. now left. }
  destruct (top_table _ _ _ _ _ _ _ Hin') as (_ & sf' & Hs' & Ht').
  rewrite Hgh in Hs'.
  assert (Permutation (candidates (RepoCtx.gh repo_ctx) flag (yielded (RepoCtx.forks repo_ctx)))
                      (candidates (RepoCtx.gh repo_ctx) flag (yielded (RepoCtx.forks repo_ctx'))))
    as Hcands by (unfold candidates; now apply Permutation_flat_map).
  destruct (sorted_reverse_spec _ _ _ Hs) as (Hsorted & _).
  destruct (sorted_reverse_spec _ _ _ Hs') as (Hsorted' & _).
  pose proof (sorted_reverse_perm _ _ _ Hs) as Hps.
  pose proof (sorted_reverse_perm _ _ _ Hs') as Hps'.
  assert (sf = sf') as <-.
  { apply (ranking_unique (flag_value flag)); try assumption.
    - rewrite Hps, Hcands. now symmetry.
    - eapply Permutation_NoDup; [ | exact Hnd ].
      apply Permutation_map. now symmetry. }
  rewrite Ht in Ht'. injection Ht' as <-. now rewrite Hh.
Qed.

Lemma top_table_ignores_listing_order_witness :
  In (EchoTable Cases.two_table Sample.star_headers)
     (trace_of (top Sample.human Cases.reordered_ctx (flag_value Star) 10 [])).
Proof.
  apply (top_table_ignores_listing_order Sample.human Cases.two_ctx Cases.reordered_ctx
           Star 10 [] [] Cases.two_table Sample.star_headers).
  - apply perm_swap.
  - reflexivity.
  - reflexivity.
  - vm_compute. repeat (apply NoDup_cons; [ cbn; intuition discriminate | ]).
    apply NoDup_nil.
  - find_in_trace.
Defined.

(** ** [top]: what a row of the table shows *)

Lemma humanize_dates_forks human l :
  forall k table,
    humanize_dates human k l = Ok table ->
    Forall2 (fun r h => exists k', humanize_fork human k' r = Ok h) l table.
Proof.
  induction l as [ | r l IH ]; cbn; intros k table H.
  - injection H as <-. constructor.
  - destruct (humanize_fork human k r) as [ h | e ] eqn:Eh; [ | discriminate H ].
    destruct (humanize_dates human (S k) l) as [ hs | e ] eqn:Ehs; [ | discriminate H ].
    injection H as <-. constructor; [ now exists k | now apply (IH (S k)) ].
Qed.

Lemma humanize_kept_row human gh flag fork r k h :
  kept_row gh flag fork = Some r ->
  humanize_fork human k r = Ok h ->
  Repo.fields h = fields_of flag /\
  Repo.values h =
    [ PStr (Fork.html_url fork);
      PInt (Fork.stargazers_count fork);
      PInt (Fork.forks_count fork);
      PInt (Fork.open_issues_count fork);
      PStr (human (2 * k) (Fork.updated_at fork));
      PStr (human (2 * k + 1) (Fork.pushed_at fork)) ]
    ++ match secondary gh flag fork with
       | Some (Ok n) => [PInt n]
       | _ => []
       end.
Proof.
  unfold kept_row. intros Hr Hh.
  destruct (secondary gh flag fork) as [ [ n | e ] | ] eqn:E; try discriminate Hr;
    injection Hr as <-;
    destruct flag; try discriminate E;
    cbn in Hh; injection Hh as <-; split; reflexivity.
Qed.

(** X12: every row of a table [top] writes shows one listed fork: its URL,
    its stars, forks and open issues as the API gave them, its two dates in
    the relative form of that fork's own timestamps, and, under a slow key,
    the number the second request for that same fork answered (branches
    counted, contributions summed, subscribers read); under a fast key the
    row ends with the dates. *)
Theorem top_row_shows_one_fork
    (human : nat -> string -> string) (repo_ctx : RepoCtx.t) (flag : sort_flag)
    (rows : Z) (s0 : list Repo.t) (table : list Repo.t) (headers : list string) :
  In (EchoTable table headers)
     (trace_of (top human repo_ctx (flag_value flag) rows s0)) ->
  Forall (fun h =>
            exists fork k,
              In fork (yielded (RepoCtx.forks repo_ctx)) /\
              Repo.values h =
                [ PStr (Fork.html_url fork);
                  PInt (Fork.stargazers_count fork);
                  PInt (Fork.forks_count fork);
                  PInt (Fork.open_issues_count fork);
                  PStr (human (2 * k) (Fork.updated_at fork));
                  PStr (human (2 * k + 1) (Fork.pushed_at fork)) ]
                ++ match secondary (RepoCtx.gh repo_ctx) flag fork with
                   | Some (Ok n) => [PInt n]
                   | _ => []
                   end /\
              (is_slow flag = true ->
               exists n, secondary (RepoCtx.gh repo_ctx) flag fork = Some (Ok n)))
         table.
Proof.
  intros Hin. destruct (top_table _ _ _ _ _ _ _ Hin) as (_ & sf & Hs & Ht).
  destruct (sorted_reverse_spec _ _ _ Hs) as (_ & _ & _ & Hsin).
  pose proof (humanize_dates_forks human _ _ _ Ht) as H2.
  assert (forall r, In r (slice_to sf rows) ->
            exists fork, In fork (yielded (RepoCtx.forks repo_ctx)) /\
                         kept_row (RepoCtx.gh repo_ctx) flag fork = Some r) as Hrows.
  { intros r Hr. destruct (slice_to_firstn sf rows) as [n Hn]. rewrite Hn in Hr.
    apply candidates_In, Hsin. rewrite <- (firstn_skipn n sf).
    apply in_or_app. now left. }
  clear Ht Hs Hsin Hin.
  induction H2 as [ | r h l l' [k Hk] H2 IH ]; constructor.
  - destruct (Hrows r (or_introl eq_refl)) as (fork & Hf & Hkept).
    destruct (humanize_kept_row _ _ _ _ _ _ _ Hkept Hk) as [_ Hv].
    exists fork, k. split; [ exact Hf | ]. split; [ exact Hv | ].
    intros Hslow. unfold kept_row in Hkept.
    destruct (secondary (RepoCtx.gh repo_ctx) flag fork) as [ [ n | e ] | ] eqn:E.
    + now exists n.
    + discriminate Hkept.
    + destruct flag; discriminate.
  - apply IH. intros r' Hr'. apply Hrows. now right.
Qed.

Lemma top_row_shows_one_fork_witness :
  Forall (fun h =>
            exists fork k,
              In fork (yielded (RepoCtx.forks Sample.repo_ctx)) /\
              Repo.values h =
                [ PStr (Fork.html_url fork);
                  PInt (Fork.stargazers_count fork);
                  PInt (Fork.forks_count fork);
                  PInt (Fork.open_issues_count fork);
                  PStr (Sample.human (2 * k) (Fork.updated_at fork));
                  PStr (Sample.human (2 * k + 1) (Fork.pushed_at fork)) ]
                ++ match secondary (RepoCtx.gh Sample.repo_ctx) Watchers_count fork with
                   | Some (Ok n) => [PInt n]
                   | _ => []
                   end /\
              (is_slow Watchers_count = true ->
               exists n, secondary (RepoCtx.gh Sample.repo_ctx) Watchers_count fork
                         = Some (Ok n)))
         Sample.watchers_table.
Proof.
  apply (top_row_shows_one_fork Sample.human Sample.repo_ctx Watchers_count 10 []
           Sample.watchers_table Sample.watchers_headers).
  find_in_trace.
Defined.
